(** * Research article manager: persistence and file-storage layer

    A shallow embedding of the Electron main-process handlers
    ([electron/database.ts], [electron/handlers/articles.ts],
    [electron/handlers/files.ts], [electron/paths.ts]) and the properties
    of the identifier allocator, the article repository and the file
    storage manager.

    Modelling conventions.
    - A JavaScript string is a [string]: a sequence of code units, here
      the 8-bit ones.
    - A JavaScript number holding an integer is a [Z].  An integer read
      from the store becomes the nearest double ([Js.toNumber]): it is
      kept when its magnitude is at most 2^53 and rounded above.
    - The SQLite store is a record of tables.  A statement either changes
      the tables or throws [SqliteError]; [db.transaction] restores the
      tables when its body throws.
    - The file system is a finite map from (directory, base name) to the
      bytes of the file.  [path.join dir name] of a directory and a base
      name without separator is the pair; directories are joined with a
      slash.  A set of directories in which every mutation is refused
      stands for permission and device failures.
    - A handler is a function from the world (store and file system) to
      an outcome (returned value or thrown error) and the world it leaves
      behind: what was written before a throw stays written unless a
      transaction undoes it. *)

From stdpp Require Import base gmap strings list pretty sorting.
From Stdlib Require Import ZArith.
From Stdlib.Strings Require Import Ascii Byte.

Local Open Scope Z_scope.

(** ** JavaScript strings *)

Module Js.

(** Code units that [String.prototype.trim] strips (tab, line feed,
    vertical tab, form feed, carriage return, space, no-break space). *)
Definition isWhiteSpace (c : ascii) : bool :=
  bool_decide (N_of_ascii c ∈ [9; 10; 11; 12; 13; 32; 160]%N).

Fixpoint trimStart (s : string) : string :=
  match s with
  | String c r => if isWhiteSpace c then trimStart r else s
  | EmptyString => EmptyString
  end.

Fixpoint trimEnd (s : string) : string :=
  match s with
  | EmptyString => EmptyString
  | String c r =>
      match trimEnd r with
      | EmptyString => if isWhiteSpace c then EmptyString else String c EmptyString
      | r' => String c r'
      end
  end.

Definition trim (s : string) : string := trimEnd (trimStart s).

(** [s.replace(/[class]/g, r)] for a character class given as a test. *)
Fixpoint replaceAll (class : ascii → bool) (r : string) (s : string) : string :=
  match s with
  | EmptyString => EmptyString
  | String c rest =>
      if class c then r +:+ replaceAll class r rest
      else String c (replaceAll class r rest)
  end.

Fixpoint repeatChar (n : nat) (c : ascii) : string :=
  match n with
  | O => EmptyString
  | S n' => String c (repeatChar n' c)
  end.

(** [s.padStart(n, c)] with a one-character filler. *)
Definition padStart (n : nat) (c : ascii) (s : string) : string :=
  repeatChar (n - String.length s) c +:+ s.

(** The largest magnitude up to which every integer is a double: 2^53. *)
Definition maxExact : Z := 9007199254740992.

(** The number that an integer of the store is read as: the nearest
    double, a tie going to the even significand.  A double has 53
    significant bits, so an integer of magnitude at most 2^53 is kept. *)
Definition toNumber (n : Z) : Z :=
  let a := Z.abs n in
  let e := Z.log2 a - 52 in
  if bool_decide (e ≤ 0) then n
  else
    let ulp := 2 ^ e in
    let q := a / ulp in
    let r := a mod ulp in
    let q' := if bool_decide (2 * r < ulp) then q
              else if bool_decide (ulp < 2 * r) then q + 1
              else if Z.even q then q else q + 1 in
    Z.sgn n * (q' * ulp).

(** The decimal of scale [p] (a power of ten) that reads back as the
    double [v], if there is one: the nearer of the two multiples of [p]
    around [v], the even one on a tie. *)
Definition roundTrip (v p : Z) : option Z :=
  let lo := v / p * p in
  let hi := lo + p in
  match bool_decide (toNumber lo = v), bool_decide (toNumber hi = v) with
  | true, true =>
      Some (if bool_decide (v - lo < hi - v) then lo
            else if bool_decide (hi - v < v - lo) then hi
            else if Z.even (lo / p) then lo else hi)
  | true, false => Some lo
  | false, true => Some hi
  | false, false => None
  end.

(** The decimal with the fewest significant digits that reads back as
    [v]: scales are tried from the coarsest, [k] of them. *)
Fixpoint shortestFrom (k : nat) (v p : Z) : Z :=
  match k with
  | O => v
  | S k' =>
      match roundTrip v p with
      | Some c => c
      | None => shortestFrom k' v (p / 10)
      end
  end.

Fixpoint dropZerosEnd (s : string) : string :=
  match s with
  | EmptyString => EmptyString
  | String c r =>
      let r' := dropZerosEnd r in
      if bool_decide (c = "0"%char) && bool_decide (r' = EmptyString)
      then EmptyString else String c r'
  end.

(** [String(v)] of a positive integer-valued double above 2^53: the
    shortest digits that read back as [v], then zeros; the exponent
    notation from 10^21 on. *)
Definition largeToString (v : Z) : string :=
  let n := String.length (pretty v) in
  let digits := pretty (shortestFrom n v (10 ^ (Z.of_nat n - 1))) in
  let m := String.length digits in
  if bool_decide (m ≤ 21)%nat then digits
  else
    match dropZerosEnd digits with
    | EmptyString => digits
    | String d EmptyString => String d ("e+" +:+ pretty (Z.of_nat m - 1))
    | String d rest => String d ("." +:+ rest +:+ "e+" +:+ pretty (Z.of_nat m - 1))
    end.

(** [String(n)] of an integer-valued number: its decimal digits up to
    magnitude 2^53, the shortest digits that read back above. *)
Definition String_ (n : Z) : string :=
  if bool_decide (Z.abs n ≤ maxExact) then pretty n
  else if bool_decide (0 < n) then largeToString n
  else "-" +:+ largeToString (- n).

(** Truthiness of a string: only the empty string is falsy. *)
Definition truthy (s : string) : bool := negb (bool_decide (s = EmptyString)).

(** [s || d] on strings. *)
Definition orString (s d : string) : string := if truthy s then s else d.

(** [n || d] on integers. *)
Definition orNumber (n d : Z) : Z := if bool_decide (n = 0) then d else n.

End Js.

(** ** File names *)

(** The character class of [makeName]: the characters that Windows
    forbids in a file name (less-than, greater-than, colon, double quote,
    slash, backslash, bar, question mark, star). *)
Definition forbiddenChar (c : ascii) : bool :=
  bool_decide (N_of_ascii c ∈ [60; 62; 58; 34; 47; 92; 124; 63; 42]%N).

Definition underscore (c : ascii) : bool := bool_decide (N_of_ascii c = 95%N).

Definition makeName (id title : string) : string :=
  let cleanTitle :=
    Js.trim (Js.replaceAll underscore " " (Js.replaceAll forbiddenChar "-" title)) in
  let baseName := id +:+ " - " +:+ cleanTitle in
  let maxLength := 200%nat in
  if bool_decide (maxLength < String.length baseName)%nat
  then Js.trim (String.substring 0 maxLength baseName)
  else baseName.

(** The class [[a-zA-Z0-9 ]] kept by the [fileName] column on create. *)
Definition alnumOrSpace (c : ascii) : bool :=
  let n := N_of_ascii c in
  (bool_decide (97 ≤ n ≤ 122) || bool_decide (65 ≤ n ≤ 90)
   || bool_decide (48 ≤ n ≤ 57) || bool_decide (n = 32))%N.

Definition articleFileName (nextId title : string) : string :=
  nextId +:+ " - " +:+
  Js.replaceAll (λ c, negb (alnumOrSpace c)) "" (String.substring 0 50 title).

(** [String(nextId).padStart(4, '0')] *)
Definition formatArticleId (n : Z) : string := Js.padStart 4 "0"%char (Js.String_ n).


(** ** The relational store *)

(** The six classification tables ([Author], [Keyword], ...) and, by the
    same index, their junction tables ([ArticleAuthor], ...). *)
Inductive EntityKind := Author | Keyword | Subject | Tag | University | Company.

Global Instance EntityKind_eq_dec : EqDecision EntityKind.
Proof. solve_decision. Defined.

(** A row [{ id, name }] of a classification table. *)
Module Entity.
Record t := mk { id : Z; name : string }.
End Entity.

Global Instance Entity_eq_dec : EqDecision Entity.t.
Proof. solve_decision. Defined.

(** A classification table: [id INTEGER PRIMARY KEY AUTOINCREMENT,
    name TEXT UNIQUE NOT NULL].  [seq] is the table's entry in
    [sqlite_sequence], the largest rowid ever handed out. *)
Record EntityTable := { entityRows : list Entity.t; entitySeq : Z }.

(** A row of table [Article] without its primary key [id], which is the
    key of the map holding the table.  A column that admits NULL is an
    option. *)
Module Row.
Record t := mk {
  title : string;
  abstract_ : string;
  conclusion : option string;
  year : Z;
  date : string;
  dateAdded : string;
  journal : option string;
  doi : option string;
  language : option string;
  numPages : option Z;
  researchQuestion : option string;
  methodology : option string;
  dataUsed : option string;
  results : option string;
  limitations : option string;
  firstImp : option string;
  notes : option string;
  comment : option string;
  rating : option Z;
  read : option Z;
  favorite : option Z;
  fileName : string;
  createdAt : option string;
  updatedAt : option string
}.
End Row.

(** The columns of [UserSettings] that the handlers below read. *)
Record SettingsRow := {
  externalStoragePath : option string;
  useExternalStorage : option Z
}.

Record Db := {
  articles : gmap string Row.t;                (* table Article, by id *)
  entities : EntityKind → EntityTable;         (* Author, Keyword, ... *)
  junctions : EntityKind → list (string * Z);  (* ArticleAuthor, ...: (articleId, entityId) *)
  idCounter : option Z;                        (* IdCounter.nextId of the row named article *)
  userSettings : list SettingsRow              (* table UserSettings *)
}.

(** ** The file system *)

Abbreviation Path := (string * string)%type.

Record Fs := {
  files : gmap Path (list byte);
  dirs : gset string;
  denied : gset string
}.

(** [path.join] of a directory and a sub-directory. *)
Definition joinDir (dir sub : string) : string := dir +:+ "/" +:+ sub.

(** ** Outcomes, the world and the handler monad *)

Inductive SqliteConstraint := PRIMARYKEY | FOREIGNKEY.

Inductive FsCode := ENOENT | EACCES.

Inductive Error :=
| ArticleAlreadyExists                (* Article already exists with same title and authors *)
| SqliteError (c : SqliteConstraint)
| PdfNotFound (articleId : string)    (* PDF not found for article ... *)
| NoteNotFound (articleId : string)   (* Note not found for article ... *)
| FsError (c : FsCode) (p : Path).

Inductive Outcome (A : Type) :=
| Returned (a : A)
| Thrown (e : Error).
Global Arguments Returned {A} a.
Global Arguments Thrown {A} e.

(** The store, the file system, and a ghost log of the identifiers that
    [getNextArticleId] has returned, oldest first.  No handler reads the
    log. *)
Record World := {
  db : Db;
  fs : Fs;
  allocated : list string
}.

Definition M (A : Type) : Type := World → Outcome A * World.

Global Instance M_ret : MRet M := λ A a w, (Returned a, w).

Global Instance M_bind : MBind M := λ A B f m w,
  match m w with
  | (Returned a, w') => f a w'
  | (Thrown e, w') => (Thrown e, w')
  end.

Definition throw {A} (e : Error) : M A := λ w, (Thrown e, w).

Definition getDb : M Db := λ w, (Returned (db w), w).

Definition putDb (d : Db) : M unit :=
  λ w, (Returned tt, {| db := d; fs := fs w; allocated := allocated w |}).

Definition getFs : M Fs := λ w, (Returned (fs w), w).

Definition putFs (f : Fs) : M unit :=
  λ w, (Returned tt, {| db := db w; fs := f; allocated := allocated w |}).

Definition logAllocated (id : string) : M unit :=
  λ w, (Returned tt, {| db := db w; fs := fs w; allocated := allocated w ++ [id] |}).

(** [try { m } catch (error) { h error }] *)
Definition tryCatch {A} (m : M A) (h : Error → M A) : M A := λ w,
  match m w with
  | (Returned a, w') => (Returned a, w')
  | (Thrown e, w') => h e w'
  end.

(** [db.transaction(body)()]: commit when the body returns, roll the
    tables back and rethrow when it throws. *)
Definition transaction {A} (body : M A) : M A := λ w,
  match body w with
  | (Returned a, w') => (Returned a, w')
  | (Thrown e, w') =>
      (Thrown e, {| db := db w; fs := fs w'; allocated := allocated w' |})
  end.

(** [l.forEach(f)] *)
Fixpoint forEach {A} (l : list A) (f : A → M unit) : M unit :=
  match l with
  | [] => mret tt
  | x :: r => f x ;; forEach r f
  end.

(** ** Statements on the store ([electron/database.ts]) *)

Definition setArticles (a : gmap string Row.t) (d : Db) : Db :=
  {| articles := a; entities := entities d; junctions := junctions d;
     idCounter := idCounter d; userSettings := userSettings d |}.

Definition setEntities (k : EntityKind) (t : EntityTable) (d : Db) : Db :=
  {| articles := articles d;
     entities := λ k', if decide (k' = k) then t else entities d k';
     junctions := junctions d;
     idCounter := idCounter d; userSettings := userSettings d |}.

Definition setJunction (k : EntityKind) (l : list (string * Z)) (d : Db) : Db :=
  {| articles := articles d; entities := entities d;
     junctions := λ k', if decide (k' = k) then l else junctions d k';
     idCounter := idCounter d; userSettings := userSettings d |}.

Definition setIdCounter (c : option Z) (d : Db) : Db :=
  {| articles := articles d; entities := entities d; junctions := junctions d;
     idCounter := c; userSettings := userSettings d |}.

(** The rowid that AUTOINCREMENT gives the next row: one more than the
    largest rowid the table ever held. *)
Definition nextRowid (t : EntityTable) : Z :=
  1 + foldr Z.max (entitySeq t) (Entity.id <$> entityRows t).

(** [SELECT id, name FROM table WHERE name = ?], else
    [INSERT INTO table (name) VALUES (?)] and [lastInsertRowid]. *)
Definition getOrCreateEntity (tableName : EntityKind) (name : string) : M Entity.t :=
  database ← getDb;
  let t := entities database tableName in
  match List.find (λ e, bool_decide (Entity.name e = name)) (entityRows t) with
  | Some entity => mret entity
  | None =>
      let entity := Entity.mk (nextRowid t) name in
      putDb (setEntities tableName
               {| entityRows := entityRows t ++ [entity];
                  entitySeq := Entity.id entity |} database) ;;
      mret entity
  end.

(** [INSERT OR IGNORE INTO junction (articleId, entityId) VALUES (?, ?)]
    with foreign keys enforced.  A pair already present is ignored (the
    primary-key conflict); OR IGNORE does not cover a foreign-key
    violation, which makes the statement throw. *)
Definition linkArticleEntity (junctionTable : EntityKind) (articleId : string)
    (entityId : Z) : M unit :=
  database ← getDb;
  let rows := junctions database junctionTable in
  if bool_decide ((articleId, entityId) ∈ rows) then mret tt
  else if bool_decide (is_Some (articles database !! articleId))
          && bool_decide (entityId ∈ (Entity.id <$> entityRows (entities database junctionTable)))
  then putDb (setJunction junctionTable (rows ++ [(articleId, entityId)]) database)
  else throw (SqliteError FOREIGNKEY).

(** [DELETE FROM junction WHERE articleId = ?] *)
Definition clearArticleRelations (junctionTable : EntityKind) (articleId : string) : M unit :=
  database ← getDb;
  putDb (setJunction junctionTable
           (filter (λ r, r.1 ≠ articleId) (junctions database junctionTable)) database).

(** [nextId + 1] as the store computes it: on 64-bit integers, and in
    floating point once the sum leaves them (or the value is a real
    already). *)
Definition sqliteSucc (n : Z) : Z :=
  if bool_decide (-9223372036854775808 ≤ n < 9223372036854775807) then n + 1
  else Js.toNumber (n + 1).

(** The transaction [getAndIncrement] of [getNextArticleId].  The row is
    read into a JavaScript number; the update is computed by the store. *)
Definition getAndIncrement : M Z :=
  transaction (
    database ← getDb;
    match idCounter database with
    | None =>
        putDb (setIdCounter (Some 2) database) ;; mret 1
    | Some nextId =>
        let currentId := Js.toNumber nextId in
        putDb (setIdCounter (Some (sqliteSucc nextId)) database) ;; mret currentId
    end).

(** Get next article ID and increment counter (never reuses IDs). *)
Definition getNextArticleId : M string :=
  nextId ← getAndIncrement;
  let id := formatArticleId nextId in
  logAllocated id ;;
  mret id.

(** ** Article handlers ([electron/handlers/articles.ts]) *)

(** The article returned to the renderer. *)
Module Article.
Record t := mk {
  id : string;
  title : string;
  abstract_ : string;
  conclusion : option string;
  year : Z;
  date : string;
  dateAdded : string;
  journal : option string;
  doi : option string;
  language : option string;
  numPages : option Z;
  researchQuestion : option string;
  methodology : option string;
  dataUsed : option string;
  results : option string;
  limitations : option string;
  firstImp : option string;
  notes : option string;
  comment : option string;
  rating : option Z;
  read : bool;
  favorite : bool;
  fileName : string;
  createdAt : option string;
  updatedAt : option string;
  authors : list Entity.t;
  keywords : list Entity.t;
  subjects : list Entity.t;
  tags : list Entity.t;
  universities : list Entity.t;
  companies : list Entity.t
}.
End Article.

(** [column || undefined] for a text column. *)
Definition orUndefined (v : option string) : option string :=
  match v with
  | Some s => if Js.truthy s then Some s else None
  | None => None
  end.

(** [column || undefined] for an integer column. *)
Definition orUndefinedZ (v : option Z) : option Z :=
  match v with
  | Some n => if bool_decide (n = 0) then None else Some n
  | None => None
  end.

(** [Boolean(column)] for an integer column. *)
Definition toBoolean (v : option Z) : bool :=
  match v with
  | Some n => negb (bool_decide (n = 0))
  | None => false
  end.

(** [SELECT e.id, e.name FROM Entity e JOIN ArticleEntity j
     ON e.id = j.entityId WHERE j.articleId = ?] *)
Definition relatedEntities (d : Db) (k : EntityKind) (id : string) : list Entity.t :=
  r ← filter (λ r, r.1 = id) (junctions d k);
  filter (λ e, Entity.id e = r.2) (entityRows (entities d k)).

Definition getArticleWithRelations (d : Db) (id : string) : option Article.t :=
  match articles d !! id with
  | None => None
  | Some article =>
      Some {|
        Article.id := id;
        Article.title := Row.title article;
        Article.abstract_ := Row.abstract_ article;
        Article.conclusion := orUndefined (Row.conclusion article);
        Article.year := Row.year article;
        Article.date := Row.date article;
        Article.dateAdded := Row.dateAdded article;
        Article.journal := orUndefined (Row.journal article);
        Article.doi := orUndefined (Row.doi article);
        Article.language := orUndefined (Row.language article);
        Article.numPages := orUndefinedZ (Row.numPages article);
        Article.researchQuestion := orUndefined (Row.researchQuestion article);
        Article.methodology := orUndefined (Row.methodology article);
        Article.dataUsed := orUndefined (Row.dataUsed article);
        Article.results := orUndefined (Row.results article);
        Article.limitations := orUndefined (Row.limitations article);
        Article.firstImp := orUndefined (Row.firstImp article);
        Article.notes := orUndefined (Row.notes article);
        Article.comment := orUndefined (Row.comment article);
        Article.rating := Row.rating article;
        Article.read := toBoolean (Row.read article);
        Article.favorite := toBoolean (Row.favorite article);
        Article.fileName := Row.fileName article;
        Article.createdAt := orUndefined (Row.createdAt article);
        Article.updatedAt := orUndefined (Row.updatedAt article);
        Article.authors := relatedEntities d Author id;
        Article.keywords := relatedEntities d Keyword id;
        Article.subjects := relatedEntities d Subject id;
        Article.tags := relatedEntities d Tag id;
        Article.universities := relatedEntities d University id;
        Article.companies := relatedEntities d Company id
      |}
  end.

(** What a handler call reads from its surroundings: the storage root of
    the run mode ([StoragePaths.root]) and the clock
    ([datetime('now')] and the date part of [new Date().toISOString()]). *)
Record Env := {
  storageRoot : string;
  datetimeNow : string;
  isoDate : string
}.

(** [ArticleFormData]; the five arrays that create reads through
    [|| []] are options. *)
Module ArticleFormData.
Record t := mk {
  title : string;
  abstract_ : string;
  conclusion : option string;
  year : Z;
  date : string;
  journal : option string;
  doi : option string;
  language : string;
  numPages : Z;
  researchQuestion : option string;
  methodology : option string;
  dataUsed : option string;
  results : option string;
  limitations : option string;
  firstImp : option string;
  notes : option string;
  comment : option string;
  rating : Z;
  read : bool;
  favorite : bool;
  authors : list string;
  keywords : option (list string);
  subjects : option (list string);
  tags : option (list string);
  universities : option (list string);
  companies : option (list string)
}.
End ArticleFormData.

(** [Partial<ArticleFormData>]: [None] is an absent (undefined) field. *)
Module PartialFormData.
Record t := mk {
  title : option string;
  abstract_ : option string;
  conclusion : option string;
  year : option Z;
  date : option string;
  journal : option string;
  doi : option string;
  language : option string;
  numPages : option Z;
  researchQuestion : option string;
  methodology : option string;
  dataUsed : option string;
  results : option string;
  limitations : option string;
  firstImp : option string;
  notes : option string;
  comment : option string;
  rating : option Z;
  read : option bool;
  favorite : option bool;
  authors : option (list string);
  keywords : option (list string);
  subjects : option (list string);
  tags : option (list string);
  universities : option (list string);
  companies : option (list string)
}.
End PartialFormData.

(** [field || d] for an optional text field. *)
Definition orText (v : option string) (d : string) : string :=
  match v with
  | Some s => Js.orString s d
  | None => d
  end.

(** [flag ? 1 : 0] *)
Definition flag (b : bool) : Z := if b then 1 else 0.

(** The duplicate check of create:
    [SELECT a.id FROM Article a JOIN ArticleAuthor aa ON a.id = aa.articleId
     JOIN Author au ON aa.authorId = au.id
     WHERE a.title = ? AND au.name IN (...) GROUP BY a.id], read with
    [get]: the id of one matching article, or nothing. *)
Definition duplicateCheck (d : Db) (title : string) (authors : list string) : option string :=
  head (
    aa ← junctions d Author;
    a ← option_list (articles d !! aa.1);
    au ← filter (λ e, Entity.id e = aa.2) (entityRows (entities d Author));
    if bool_decide (Row.title a = title) && bool_decide (Entity.name au ∈ authors)
    then [aa.1] else []).

(** [INSERT INTO Article (...) VALUES (...)]; [createdAt] and [updatedAt]
    take their default [datetime('now')]. *)
Definition insertArticle (env : Env) (nextId fileName : string)
    (formData : ArticleFormData.t) : M unit :=
  database ← getDb;
  match articles database !! nextId with
  | Some _ => throw (SqliteError PRIMARYKEY)
  | None =>
      putDb (setArticles (<[nextId := {|
        Row.title := ArticleFormData.title formData;
        Row.abstract_ := ArticleFormData.abstract_ formData;
        Row.conclusion := Some (orText (ArticleFormData.conclusion formData) "");
        Row.year := ArticleFormData.year formData;
        Row.date := ArticleFormData.date formData;
        Row.dateAdded := isoDate env;
        Row.journal := Some (orText (ArticleFormData.journal formData) "");
        Row.doi := Some (orText (ArticleFormData.doi formData) "");
        Row.language := Some (Js.orString (ArticleFormData.language formData) "English");
        Row.numPages := Some (Js.orNumber (ArticleFormData.numPages formData) 0);
        Row.researchQuestion := Some (orText (ArticleFormData.researchQuestion formData) "");
        Row.methodology := Some (orText (ArticleFormData.methodology formData) "");
        Row.dataUsed := Some (orText (ArticleFormData.dataUsed formData) "");
        Row.results := Some (orText (ArticleFormData.results formData) "");
        Row.limitations := Some (orText (ArticleFormData.limitations formData) "");
        Row.firstImp := Some (orText (ArticleFormData.firstImp formData) "");
        Row.notes := Some (orText (ArticleFormData.notes formData) "");
        Row.comment := Some (orText (ArticleFormData.comment formData) "");
        Row.rating := Some (ArticleFormData.rating formData);
        Row.read := Some (flag (ArticleFormData.read formData));
        Row.favorite := Some (flag (ArticleFormData.favorite formData));
        Row.fileName := fileName;
        Row.createdAt := Some (datetimeNow env);
        Row.updatedAt := Some (datetimeNow env)
      |}]> (articles database)) database)
  end.

(** [names.forEach(name => linkArticleEntity(junction, id,
    getOrCreateEntity(table, name).id))] *)
Definition linkNames (k : EntityKind) (id : string) (names : list string) : M unit :=
  forEach names (λ name,
    entity ← getOrCreateEntity k name;
    linkArticleEntity k id (Entity.id entity)).

(** The transaction [createArticle] of create: the article row and its
    links. *)
Definition createArticle (env : Env) (nextId fileName : string)
    (formData : ArticleFormData.t) : M unit :=
  transaction (
    insertArticle env nextId fileName formData ;;
    linkNames Author nextId (ArticleFormData.authors formData) ;;
    linkNames Keyword nextId (default [] (ArticleFormData.keywords formData)) ;;
    linkNames Subject nextId (default [] (ArticleFormData.subjects formData)) ;;
    linkNames Tag nextId (default [] (ArticleFormData.tags formData)) ;;
    linkNames University nextId (default [] (ArticleFormData.universities formData)) ;;
    linkNames Company nextId (default [] (ArticleFormData.companies formData))).

(** Handler [articles:create]. *)
Definition articlesCreate (env : Env) (formData : ArticleFormData.t) : M (option Article.t) :=
  tryCatch (
    database ← getDb;
    let exists_ := duplicateCheck database (ArticleFormData.title formData)
                     (ArticleFormData.authors formData) in
    if bool_decide (is_Some exists_) then throw ArticleAlreadyExists
    else
      nextId ← getNextArticleId;
      let fileName := articleFileName nextId (ArticleFormData.title formData) in
      createArticle env nextId fileName formData ;;
      database ← getDb;
      mret (getArticleWithRelations database nextId))
  (λ error, throw error).

(** The SET clauses that update builds: a column is assigned when its
    field is present; [updatedAt = datetime('now')] is always pushed. *)
Definition updateColumns (env : Env) (formData : PartialFormData.t) (r : Row.t) : Row.t :=
  {| Row.title := default (Row.title r) (PartialFormData.title formData);
     Row.abstract_ := default (Row.abstract_ r) (PartialFormData.abstract_ formData);
     Row.conclusion := from_option Some (Row.conclusion r) (PartialFormData.conclusion formData);
     Row.year := default (Row.year r) (PartialFormData.year formData);
     Row.date := default (Row.date r) (PartialFormData.date formData);
     Row.dateAdded := Row.dateAdded r;
     Row.journal := from_option Some (Row.journal r) (PartialFormData.journal formData);
     Row.doi := from_option Some (Row.doi r) (PartialFormData.doi formData);
     Row.language := from_option Some (Row.language r) (PartialFormData.language formData);
     Row.numPages := from_option Some (Row.numPages r) (PartialFormData.numPages formData);
     Row.researchQuestion :=
       from_option Some (Row.researchQuestion r) (PartialFormData.researchQuestion formData);
     Row.methodology := from_option Some (Row.methodology r) (PartialFormData.methodology formData);
     Row.dataUsed := from_option Some (Row.dataUsed r) (PartialFormData.dataUsed formData);
     Row.results := from_option Some (Row.results r) (PartialFormData.results formData);
     Row.limitations := from_option Some (Row.limitations r) (PartialFormData.limitations formData);
     Row.firstImp := from_option Some (Row.firstImp r) (PartialFormData.firstImp formData);
     Row.notes := from_option Some (Row.notes r) (PartialFormData.notes formData);
     Row.comment := from_option Some (Row.comment r) (PartialFormData.comment formData);
     Row.rating := from_option Some (Row.rating r) (PartialFormData.rating formData);
     Row.read := from_option (λ b, Some (flag b)) (Row.read r) (PartialFormData.read formData);
     Row.favorite :=
       from_option (λ b, Some (flag b)) (Row.favorite r) (PartialFormData.favorite formData);
     Row.fileName := Row.fileName r;
     Row.createdAt := Row.createdAt r;
     Row.updatedAt := Some (datetimeNow env) |}.

(** [UPDATE Article SET ... WHERE id = ?]: no row, no change. *)
Definition updateArticleRow (env : Env) (id : string) (formData : PartialFormData.t) : M unit :=
  database ← getDb;
  putDb (setArticles (alter (updateColumns env formData) id (articles database)) database).

(** [if (field !== undefined) { clearArticleRelations(...); field.forEach(...) }] *)
Definition replaceLinks (k : EntityKind) (id : string) (names : option (list string)) : M unit :=
  match names with
  | None => mret tt
  | Some l => clearArticleRelations k id ;; linkNames k id l
  end.

(** The transaction [updateArticle] of update. *)
Definition updateArticle (env : Env) (id : string) (formData : PartialFormData.t) : M unit :=
  transaction (
    updateArticleRow env id formData ;;
    replaceLinks Author id (PartialFormData.authors formData) ;;
    replaceLinks Keyword id (PartialFormData.keywords formData) ;;
    replaceLinks Subject id (PartialFormData.subjects formData) ;;
    replaceLinks Tag id (PartialFormData.tags formData) ;;
    replaceLinks University id (PartialFormData.universities formData) ;;
    replaceLinks Company id (PartialFormData.companies formData)).

(** Handler [articles:update]. *)
Definition articlesUpdate (env : Env) (id : string) (formData : PartialFormData.t)
    : M (option Article.t) :=
  tryCatch (
    updateArticle env id formData ;;
    database ← getDb;
    mret (getArticleWithRelations database id))
  (λ error, throw error).

(** Handler [articles:getById]. *)
Definition articlesGetById (id : string) : M (option Article.t) :=
  tryCatch (database ← getDb; mret (getArticleWithRelations database id))
           (λ error, throw error).

(** ** File-system calls *)

(** [fs.existsSync] of a file path. *)
Definition existsSync (p : Path) : M bool :=
  f ← getFs; mret (bool_decide (is_Some (files f !! p))).

(** [fs.existsSync] of a directory. *)
Definition existsDirSync (dir : string) : M bool :=
  f ← getFs; mret (bool_decide (dir ∈ dirs f)).

(** [fs.mkdirSync(dir, { recursive: true })] *)
Definition mkdirSync (dir : string) : M unit :=
  f ← getFs;
  if bool_decide (dir ∈ denied f) then throw (FsError EACCES (dir, ""))
  else putFs {| files := files f; dirs := {[dir]} ∪ dirs f; denied := denied f |}.

(** Where a write lands, or why it is refused. *)
Definition writeAt (p : Path) (data : list byte) : M unit :=
  f ← getFs;
  if bool_decide (p.1 ∉ dirs f) then throw (FsError ENOENT p)
  else if bool_decide (p.1 ∈ denied f) then throw (FsError EACCES p)
  else putFs {| files := <[p := data]> (files f); dirs := dirs f; denied := denied f |}.

(** [fs.writeFileSync(p, data)] *)
Definition writeFileSync (p : Path) (data : list byte) : M unit := writeAt p data.

(** [fs.copyFileSync(src, dst)] *)
Definition copyFileSync (src dst : Path) : M unit :=
  f ← getFs;
  match files f !! src with
  | None => throw (FsError ENOENT src)
  | Some data => writeAt dst data
  end.

(** [fs.unlinkSync(p)] *)
Definition unlinkSync (p : Path) : M unit :=
  f ← getFs;
  if bool_decide (files f !! p = None) then throw (FsError ENOENT p)
  else if bool_decide (p.1 ∈ denied f) then throw (FsError EACCES p)
  else putFs {| files := delete p (files f); dirs := dirs f; denied := denied f |}.

(** [if (!fs.existsSync(dir)) fs.mkdirSync(dir, { recursive: true })] *)
Definition ensureDir (dir : string) : M unit :=
  present ← existsDirSync dir;
  if (present : bool) then mret tt else mkdirSync dir.

(** [if (fs.existsSync(p)) fs.unlinkSync(p)] *)
Definition unlinkIfExists (p : Path) : M unit :=
  present ← existsSync p;
  if (present : bool) then unlinkSync p else mret tt.

(** [StoragePaths.pdfs] and [StoragePaths.notes] *)
Definition getPdfDir (env : Env) : string := joinDir (storageRoot env) "pdfs".
Definition getNotesDir (env : Env) : string := joinDir (storageRoot env) "notes".

(** [DELETE FROM Article WHERE id = ?] with the ON DELETE CASCADE of the
    six junction tables. *)
Definition deleteArticleRow (id : string) : M unit :=
  database ← getDb;
  putDb {| articles := delete id (articles database);
           entities := entities database;
           junctions := λ k, filter (λ r, r.1 ≠ id) (junctions database k);
           idCounter := idCounter database;
           userSettings := userSettings database |}.

(** [SELECT externalStoragePath, useExternalStorage FROM UserSettings LIMIT 1] *)
Definition selectExternalSettings (d : Db) : option SettingsRow := head (userSettings d).

(** Handler [articles:delete]. *)
Definition articlesDelete (env : Env) (id : string) : M unit :=
  tryCatch (
    let storagePath := storageRoot env in
    unlinkIfExists (joinDir storagePath "pdfs", id +:+ ".pdf") ;;
    unlinkIfExists (joinDir storagePath "notes", id +:+ ".docx") ;;
    database ← getDb;
    match selectExternalSettings database with
    | Some {| externalStoragePath := Some extPath; useExternalStorage := Some use |} =>
        if negb (bool_decide (use = 0)) && Js.truthy extPath then
          unlinkIfExists (joinDir extPath "pdfs", id +:+ ".pdf") ;;
          unlinkIfExists (joinDir extPath "notes", id +:+ ".docx")
        else mret tt
    | _ => mret tt
    end ;;
    deleteArticleRow id)
  (λ error, throw error).

(** ** File handlers ([electron/handlers/files.ts]) *)

(** [getExternalStorageSettings]: [{ enabled, path }]. *)
Definition getExternalStorageSettings (d : Db) : bool * string :=
  match selectExternalSettings d with
  | Some settings =>
      (toBoolean (useExternalStorage settings),
       orText (externalStoragePath settings) "")
  | None => (false, "")
  end.

(** The [try] block of [copyToExternalIfEnabled]. *)
Definition copyToExternalBody (internalPath : Path) (subdir fileName : string) : M unit :=
  database ← getDb;
  let external := getExternalStorageSettings database in
  if negb external.1 || negb (Js.truthy external.2) then mret tt
  else
    let externalDir := joinDir external.2 subdir in
    ensureDir externalDir ;;
    copyFileSync internalPath (externalDir, fileName).

(** [copyToExternalIfEnabled]: the error of the block is logged, not
    thrown. *)
Definition copyToExternalIfEnabled (internalPath : Path) (subdir fileName : string) : M unit :=
  tryCatch (copyToExternalBody internalPath subdir fileName) (λ _, mret tt).

(** Handler [files:uploadPdf]. *)
Definition filesUploadPdf (env : Env) (articleId articleTitle : string)
    (fileBuffer : list byte) : M string :=
  tryCatch (
    let pdfFileName := makeName articleId articleTitle +:+ ".pdf" in
    let pdfPath := (getPdfDir env, pdfFileName) in
    ensureDir (getPdfDir env) ;;
    writeFileSync pdfPath fileBuffer ;;
    copyToExternalIfEnabled pdfPath "pdfs" pdfFileName ;;
    mret pdfFileName)
  (λ error, throw error).

(** [getArticleTitle]: [result?.title || null]. *)
Definition getArticleTitle (d : Db) (articleId : string) : option string :=
  match articles d !! articleId with
  | Some result => if Js.truthy (Row.title result) then Some (Row.title result) else None
  | None => None
  end.

(** [findPdfFile]: the new format first, then the old one. *)
Definition findPdfFile (env : Env) (articleId : string) : M (option Path) :=
  database ← getDb;
  let pdfDir := getPdfDir env in
  let oldPath := (pdfDir, articleId +:+ ".pdf") in
  let fallback : M (option Path) :=
    present ← existsSync oldPath;
    if (present : bool) then mret (Some oldPath) else mret None in
  match getArticleTitle database articleId with
  | Some title =>
      let newPath := (pdfDir, makeName articleId title +:+ ".pdf") in
      present ← existsSync newPath;
      if (present : bool) then mret (Some newPath) else fallback
  | None => fallback
  end.

(** [findNoteFile] *)
Definition findNoteFile (env : Env) (articleId : string) : M (option Path) :=
  database ← getDb;
  let notesDir := getNotesDir env in
  let oldPath := (notesDir, articleId +:+ ".docx") in
  let fallback : M (option Path) :=
    present ← existsSync oldPath;
    if (present : bool) then mret (Some oldPath) else mret None in
  match getArticleTitle database articleId with
  | Some title =>
      let newPath := (notesDir, makeName articleId title +:+ ".docx") in
      present ← existsSync newPath;
      if (present : bool) then mret (Some newPath) else fallback
  | None => fallback
  end.

(** Handler [files:getPdfPath]: the located path or null. *)
Definition filesGetPdfPath (env : Env) (articleId : string) : M (option Path) :=
  tryCatch (findPdfFile env articleId) (λ _, mret None).


(** Handler [files:openNote]. *)
Definition filesOpenNote (env : Env) (articleId : string) : M Path :=
  tryCatch (
    notePath ← findNoteFile env articleId;
    match notePath with
    | None => throw (NoteNotFound articleId)
    | Some p => mret p
    end)
  (λ error, throw error).

(** ** Sequences of handler calls *)

Inductive Call :=
| CallCreate (env : Env) (formData : ArticleFormData.t)
| CallUpdate (env : Env) (id : string) (formData : PartialFormData.t)
| CallDelete (env : Env) (id : string)
| CallUploadPdf (env : Env) (articleId articleTitle : string) (fileBuffer : list byte).

(** The world a call leaves behind, whether it returned or threw. *)
Definition runCall (w : World) (c : Call) : World :=
  match c with
  | CallCreate env formData => (articlesCreate env formData w).2
  | CallUpdate env id formData => (articlesUpdate env id formData w).2
  | CallDelete env id => (articlesDelete env id w).2
  | CallUploadPdf env id title buf => (filesUploadPdf env id title buf w).2
  end.

Definition runCalls (w : World) (calls : list Call) : World := foldl runCall w calls.

(** ** Sample data *)

Definition emptyDb : Db :=
  {| articles := ∅;
     entities := λ _, {| entityRows := []; entitySeq := 0 |};
     junctions := λ _, [];
     idCounter := Some 1;
     userSettings := [] |}.

Definition emptyFs : Fs := {| files := ∅; dirs := ∅; denied := ∅ |}.

Definition emptyWorld : World := {| db := emptyDb; fs := emptyFs; allocated := [] |}.

Definition devEnv : Env :=
  {| storageRoot := "storage"; datetimeNow := "2025-01-01 10:00:00"; isoDate := "2025-01-01" |}.

Definition laterEnv : Env :=
  {| storageRoot := "storage"; datetimeNow := "2025-02-02 12:30:00"; isoDate := "2025-02-02" |}.

Definition sampleForm (title : string) (authors : list string) : ArticleFormData.t :=
  {| ArticleFormData.title := title;
     ArticleFormData.abstract_ := "An abstract";
     ArticleFormData.conclusion := None;
     ArticleFormData.year := 2024;
     ArticleFormData.date := "2024-05-01";
     ArticleFormData.journal := None;
     ArticleFormData.doi := None;
     ArticleFormData.language := "English";
     ArticleFormData.numPages := 12;
     ArticleFormData.researchQuestion := None;
     ArticleFormData.methodology := None;
     ArticleFormData.dataUsed := None;
     ArticleFormData.results := None;
     ArticleFormData.limitations := None;
     ArticleFormData.firstImp := None;
     ArticleFormData.notes := None;
     ArticleFormData.comment := None;
     ArticleFormData.rating := 3;
     ArticleFormData.read := false;
     ArticleFormData.favorite := false;
     ArticleFormData.authors := authors;
     ArticleFormData.keywords := Some ["kw"];
     ArticleFormData.subjects := None;
     ArticleFormData.tags := None;
     ArticleFormData.universities := None;
     ArticleFormData.companies := None |}.

(** The empty payload [{}]. *)
Definition emptyPayload : PartialFormData.t :=
  PartialFormData.mk None None None None None None None None None None None None None
    None None None None None None None None None None None None None.

Definition tenBytes : list byte :=
  [x25; x50; x44; x46; x2d; x31; x2e; x34; x0a; x0a].



(** External mirroring switched on, towards the folder [cloud]. *)
Definition mirrorSettings : SettingsRow :=
  {| externalStoragePath := Some "cloud"; useExternalStorage := Some 1 |}.

Definition mirroredWorld : World :=
  {| db := {| articles := ∅;
              entities := λ _, {| entityRows := []; entitySeq := 0 |};
              junctions := λ _, [];
              idCounter := Some 1;
              userSettings := [mirrorSettings] |};
     fs := emptyFs; allocated := [] |}.

(** The same, with the mirror folder refusing every write. *)
Definition brokenMirrorWorld : World :=
  {| db := db mirroredWorld;
     fs := {| files := ∅; dirs := ∅; denied := {[ joinDir "cloud" "pdfs" ]} |};
     allocated := [] |}.

(** The payload [{ title }]. *)
Definition titlePayload (title : string) : PartialFormData.t :=
  PartialFormData.mk (Some title) None None None None None None None None None None None None
    None None None None None None None None None None None None None.

(** The payload [{ authors }]. *)
Definition authorsPayload (authors : list string) : PartialFormData.t :=
  PartialFormData.mk None None None None None None None None None None None None None
    None None None None None None None (Some authors) None None None None None.

Definition sampleCalls : list Call :=
  [ CallCreate devEnv (sampleForm "Foo Bar" ["A. Doe"]);
    CallCreate devEnv (sampleForm "Baz" ["B. Roe"]);
    CallCreate devEnv (sampleForm "Foo Bar" ["A. Doe"]);
    CallDelete laterEnv "0001";
    CallCreate laterEnv (sampleForm "Foo Bar" ["A. Doe"]);
    CallDelete laterEnv "0003";
    CallUpdate laterEnv "0002" (titlePayload "Baz 2");
    CallCreate laterEnv (sampleForm "Qux" []) ].

(** The scenario of an orchestrated delete, external mirroring switched
    on: create article 0001, store its PDF, delete the article. *)
Definition deleteScenario : World :=
  runCalls mirroredWorld
    [ CallCreate devEnv (sampleForm "Foo Bar" ["A. Doe"]);
      CallUploadPdf devEnv "0001" "Foo Bar" tenBytes;
      CallDelete laterEnv "0001" ].

(** A library holding the one article Foo Bar by A. Doe. *)
Definition oneArticleWorld : World :=
  (articlesCreate devEnv (sampleForm "Foo Bar" ["A. Doe"]) emptyWorld).2.

(** A library holding the one article Foo Bar without any author. *)
Definition noAuthorWorld : World :=
  (articlesCreate devEnv (sampleForm "Foo Bar" []) emptyWorld).2.

(** ** Notions used by the statements *)

(** The value of the counter: the stored one, or 1 when the row is
    missing. *)
Definition counterStart (d : Db) : Z := default 1 (idCounter d).

(** The identifier that the allocator hands out next, and the store it
    leaves. *)
Definition nextArticleId (d : Db) : string :=
  formatArticleId (Js.toNumber (counterStart d)).

Definition advanceCounter (d : Db) : Db :=
  setIdCounter (Some (sqliteSucc (counterStart d))) d.

(** An integer that a read from the store keeps. *)
Definition exactInteger (n : Z) : Prop := - Js.maxExact ≤ n ≤ Js.maxExact.

(** A step of a session: a call of the allocator, or a call of a
    handler. *)
Inductive Step :=
| Allocate
| Handle (c : Call).

Definition stepWorld (w : World) (s : Step) : World :=
  match s with
  | Allocate => (getNextArticleId w).2
  | Handle c => runCall w c
  end.

(** The identifier that a step returns: the one of the allocator, or the
    one of the article that create returns. *)
Definition stepId (w : World) (s : Step) : option string :=
  match s with
  | Allocate =>
      match (getNextArticleId w).1 with
      | Returned id => Some id
      | Thrown _ => None
      end
  | Handle (CallCreate env formData) =>
      match (articlesCreate env formData w).1 with
      | Returned (Some a) => Some (Article.id a)
      | _ => None
      end
  | Handle _ => None
  end.

(** The identifiers returned during a session, oldest first. *)
Fixpoint returnedIds (w : World) (steps : list Step) : list string :=
  match steps with
  | [] => []
  | s :: rest => option_list (stepId w s) ++ returnedIds (stepWorld w s) rest
  end.

(** Sample: create, delete, create again. *)
Definition recreateSteps (id : string) : list Step :=
  [ Handle (CallCreate devEnv (sampleForm "Foo Bar" ["A. Doe"]));
    Handle (CallDelete laterEnv id);
    Handle (CallCreate laterEnv (sampleForm "Foo Bar" ["A. Doe"])) ].

(** Sample: an empty library whose counter stands at 2^53. *)
Definition saturatedWorld : World :=
  {| db := setIdCounter (Some Js.maxExact) emptyDb; fs := emptyFs; allocated := [] |}.



(** The names of the authors that [get] reports for an article. *)
Definition authorNames (d : Db) (id : string) : list string :=
  Entity.name <$> relatedEntities d Author id.

(** An error of the not-found kind. *)
Definition isNotFound (e : Error) : bool :=
  match e with
  | PdfNotFound _ | NoteNotFound _ => true
  | _ => false
  end.

(** A payload field that supplies at least one name. *)
Definition suppliesName (names : option (list string)) : bool :=
  match names with
  | Some (_ :: _) => true
  | _ => false
  end.

Definition suppliesNames (formData : PartialFormData.t) : bool :=
  suppliesName (PartialFormData.authors formData)
  || suppliesName (PartialFormData.keywords formData)
  || suppliesName (PartialFormData.subjects formData)
  || suppliesName (PartialFormData.tags formData)
  || suppliesName (PartialFormData.universities formData)
  || suppliesName (PartialFormData.companies formData).


(** A stored row with another last-update time. *)
Definition withUpdatedAt (now : string) (r : Row.t) : Row.t :=
  {| Row.title := Row.title r; Row.abstract_ := Row.abstract_ r;
     Row.conclusion := Row.conclusion r; Row.year := Row.year r; Row.date := Row.date r;
     Row.dateAdded := Row.dateAdded r; Row.journal := Row.journal r; Row.doi := Row.doi r;
     Row.language := Row.language r; Row.numPages := Row.numPages r;
     Row.researchQuestion := Row.researchQuestion r; Row.methodology := Row.methodology r;
     Row.dataUsed := Row.dataUsed r; Row.results := Row.results r;
     Row.limitations := Row.limitations r; Row.firstImp := Row.firstImp r;
     Row.notes := Row.notes r; Row.comment := Row.comment r; Row.rating := Row.rating r;
     Row.read := Row.read r; Row.favorite := Row.favorite r; Row.fileName := Row.fileName r;
     Row.createdAt := Row.createdAt r; Row.updatedAt := Some now |}.

(** A returned article with another last-update time. *)
Definition articleWithUpdatedAt (now : option string) (a : Article.t) : Article.t :=
  {| Article.id := Article.id a; Article.title := Article.title a;
     Article.abstract_ := Article.abstract_ a; Article.conclusion := Article.conclusion a;
     Article.year := Article.year a; Article.date := Article.date a;
     Article.dateAdded := Article.dateAdded a; Article.journal := Article.journal a;
     Article.doi := Article.doi a; Article.language := Article.language a;
     Article.numPages := Article.numPages a;
     Article.researchQuestion := Article.researchQuestion a;
     Article.methodology := Article.methodology a; Article.dataUsed := Article.dataUsed a;
     Article.results := Article.results a; Article.limitations := Article.limitations a;
     Article.firstImp := Article.firstImp a; Article.notes := Article.notes a;
     Article.comment := Article.comment a; Article.rating := Article.rating a;
     Article.read := Article.read a; Article.favorite := Article.favorite a;
     Article.fileName := Article.fileName a; Article.createdAt := Article.createdAt a;
     Article.updatedAt := now;
     Article.authors := Article.authors a; Article.keywords := Article.keywords a;
     Article.subjects := Article.subjects a; Article.tags := Article.tags a;
     Article.universities := Article.universities a; Article.companies := Article.companies a |}.

(** Leading zeros removed. *)
Fixpoint stripZeros (s : string) : string :=
  match s with
  | String c r => if bool_decide (c = "0"%char) then stripZeros r else s
  | EmptyString => EmptyString
  end.

(** ** Frames

    [Spec R E m]: whatever the world, [m] leaves a world related to it
    by [R], and throws only errors in [E]. *)
Definition Spec {A} (R : World → World → Prop) (E : Error → Prop) (m : M A) : Prop :=
  ∀ w, R w (m w).2 ∧ ∀ e, (m w).1 = Thrown e → E e.

(** A frame relation is a preorder that survives the rollback of a
    transaction. *)
Class Frame (R : World → World → Prop) : Prop := {
  frame_refl : ∀ w, R w w;
  frame_trans : ∀ a b c, R a b → R b c → R a c;
  frame_rollback : ∀ w w',
    R w w' → R w {| db := db w; fs := fs w'; allocated := allocated w' |}
}.

(** Statements on the classification and junction tables leave the
    files, the log, the counter, the settings alone. *)
Definition dbOnly (w w' : World) : Prop :=
  fs w' = fs w ∧ allocated w' = allocated w
  ∧ idCounter (db w') = idCounter (db w) ∧ userSettings (db w') = userSettings (db w).

(** File-system calls leave the store and the log alone. *)
Definition fsOnly (w w' : World) : Prop :=
  db w' = db w ∧ allocated w' = allocated w.

(** The counter and the log of allocated identifiers are unchanged. *)
Definition sameCounter (w w' : World) : Prop :=
  idCounter (db w') = idCounter (db w) ∧ allocated w' = allocated w.

(** Every file with a base name other than [name] is unchanged. *)
Definition otherFiles (name : string) (w w' : World) : Prop :=
  ∀ q : Path, q.2 ≠ name → files (fs w') !! q = files (fs w) !! q.

(** What a statement of update does when the article is unknown: it
    throws the foreign-key error, or it returns and leaves table Article
    as it was. *)
Definition unknownIdSpec (id : string) (throws : bool) (m : M unit) : Prop :=
  ∀ w, articles (db w) !! id = None →
    if throws then ∃ w', m w = (Thrown (SqliteError FOREIGNKEY), w')
    else ∃ w', m w = (Returned tt, w') ∧ articles (db w') = articles (db w).

Definition anyError (e : Error) : Prop := True.
Definition noError (e : Error) : Prop := False.
Definition foreignKeyError (e : Error) : Prop := e = SqliteError FOREIGNKEY.
Definition sqliteError (e : Error) : Prop := ∃ c, e = SqliteError c.

(** * Further handlers and helpers *)

(** ** The title sanitizer of the forms ([lib/utils.ts]) *)

(** [pattern.test(s)] for a character class. *)
Fixpoint testClass (class : ascii → bool) (s : string) : bool :=
  match s with
  | EmptyString => false
  | String c rest => class c || testClass class rest
  end.

(** [checkTitle]: the forms pass every title through it before create
    and update. *)
Definition checkTitle (title : string) : string :=
  if negb (Js.truthy title) then EmptyString
  else if testClass forbiddenChar title
  then Js.replaceAll underscore " " (Js.replaceAll forbiddenChar "-" title)
  else Js.replaceAll underscore " " title.

(** ** Renaming and the naming migration ([files:migrateFileNames]) *)

(** [fs.renameSync(src, dst)] *)
Definition renameSync (src dst : Path) : M unit :=
  f ← getFs;
  match files f !! src with
  | None => throw (FsError ENOENT src)
  | Some data =>
      if bool_decide (dst.1 ∉ dirs f) then throw (FsError ENOENT dst)
      else if bool_decide (src.1 ∈ denied f) then throw (FsError EACCES src)
      else if bool_decide (dst.1 ∈ denied f) then throw (FsError EACCES dst)
      else putFs {| files := <[dst := data]> (delete src (files f));
                    dirs := dirs f; denied := denied f |}
  end.

(** The two kinds of document and where they live. *)
Inductive FileKind := Pdf | Note.

Definition kindSubdir (k : FileKind) : string :=
  match k with Pdf => "pdfs" | Note => "notes" end.

Definition kindExt (k : FileKind) : string :=
  match k with Pdf => ".pdf" | Note => ".docx" end.

Definition kindDir (env : Env) (k : FileKind) : string :=
  joinDir (storageRoot env) (kindSubdir k).

(** What the migration counts and collects: [migratedPdfs],
    [migratedNotes] and [errors] (an entry is the kind, the article id
    and the error caught). *)
Record MigrationCount := {
  migratedPdfs : nat;
  migratedNotes : nat;
  migrationErrors : list (FileKind * string * Error)
}.

Definition countMigrated (k : FileKind) (c : MigrationCount) : MigrationCount :=
  match k with
  | Pdf => {| migratedPdfs := S (migratedPdfs c); migratedNotes := migratedNotes c;
              migrationErrors := migrationErrors c |}
  | Note => {| migratedPdfs := migratedPdfs c; migratedNotes := S (migratedNotes c);
               migrationErrors := migrationErrors c |}
  end.

Definition pushError (k : FileKind) (id : string) (e : Error) (c : MigrationCount)
    : MigrationCount :=
  {| migratedPdfs := migratedPdfs c; migratedNotes := migratedNotes c;
     migrationErrors := migrationErrors c ++ [(k, id, e)] |}.

(** The external part of one migration: the mirrored legacy file, when
    there is one, is renamed too. *)
Definition migrateExternal (k : FileKind) (oldName newName : string) : M unit :=
  database ← getDb;
  let external := getExternalStorageSettings database in
  if external.1 && Js.truthy external.2 then
    let extOldPath := (joinDir external.2 (kindSubdir k), oldName) in
    let extNewPath := (joinDir external.2 (kindSubdir k), newName) in
    present ← existsSync extOldPath;
    if (present : bool) then
      unlinkIfExists extNewPath ;;
      renameSync extOldPath extNewPath
    else mret tt
  else mret tt.

(** One block of the loop body: the PDF, or the note, of one article.
    The counter is incremented between the primary rename and the
    external part, so an error of the external part is recorded beside
    the increment, an error of the primary part without it. *)
Definition migrateFile (env : Env) (k : FileKind) (article : string * string)
    (c : MigrationCount) : M MigrationCount :=
  let oldName := article.1 +:+ kindExt k in
  let newName := makeName article.1 article.2 +:+ kindExt k in
  let oldPath := (kindDir env k, oldName) in
  let newPath := (kindDir env k, newName) in
  present ← existsSync oldPath;
  if (present : bool) && negb (bool_decide (oldName = newName)) then
    tryCatch (
      unlinkIfExists newPath ;;
      renameSync oldPath newPath ;;
      tryCatch (migrateExternal k oldName newName ;; mret (countMigrated k c))
               (λ err, mret (pushError k article.1 err (countMigrated k c))))
    (λ err, mret (pushError k article.1 err c))
  else mret c.

(** [for (const article of articles) { ... }] *)
Fixpoint migrateLoop (env : Env) (articles : list (string * string))
    (c : MigrationCount) : M MigrationCount :=
  match articles with
  | [] => mret c
  | article :: rest =>
      c1 ← migrateFile env Pdf article c;
      c2 ← migrateFile env Note article c1;
      migrateLoop env rest c2
  end.

(** The report of the migration. *)
Record MigrationReport := {
  reportSuccess : bool;
  reportMigratedPdfs : nat;
  reportMigratedNotes : nat;
  reportTotalArticles : nat;
  reportErrors : option (list (FileKind * string * Error))
}.

(** [SELECT id, title FROM Article] *)
Definition selectIdTitle (d : Db) : list (string * string) :=
  (λ r, (r.1, Row.title r.2)) <$> map_to_list (articles d).

(** Handler [files:migrateFileNames]. *)
Definition filesMigrateFileNames (env : Env) : M MigrationReport :=
  tryCatch (
    database ← getDb;
    let articles := selectIdTitle database in
    c ← migrateLoop env articles
          {| migratedPdfs := 0; migratedNotes := 0; migrationErrors := [] |};
    mret {| reportSuccess := true;
            reportMigratedPdfs := migratedPdfs c;
            reportMigratedNotes := migratedNotes c;
            reportTotalArticles := length articles;
            reportErrors := match migrationErrors c with
                            | [] => None
                            | errs => Some errs
                            end |})
  (λ error, throw error).

(** ** Storage directories ([electron/paths.ts]) *)


(** ** Listing ([articles:getAll]) *)

(** [a.dateAdded >= b.dateAdded] under the binary collation. *)
Definition dateAddedGe (a b : string * Row.t) : Prop :=
  String.le (Row.dateAdded b.2) (Row.dateAdded a.2).

Global Instance dateAddedGe_dec : RelDecision dateAddedGe.
Proof. intros a b. unfold dateAddedGe. apply _. Defined.

(** Handler [articles:getAll]:
    [SELECT id FROM Article ORDER BY dateAdded DESC], each id read with
    its relations, nulls filtered out. *)
Definition articlesGetAll : M (list Article.t) :=
  tryCatch (
    database ← getDb;
    let articleIds := fst <$> merge_sort dateAddedGe (map_to_list (articles database)) in
    mret (omap (getArticleWithRelations database) articleIds))
  (λ error, throw error).

(** ** Well-formed stores *)

(** What the constraints of the schema guarantee: primary keys and UNIQUE
    names of the classification tables, the primary key of the junction
    tables, and their two foreign keys. *)
Record wfDb (d : Db) : Prop := {
  wf_ids : ∀ k, NoDup (Entity.id <$> entityRows (entities d k));
  wf_names : ∀ k, NoDup (Entity.name <$> entityRows (entities d k));
  wf_links : ∀ k, NoDup (junctions d k);
  wf_fk_article : ∀ k r, r ∈ junctions d k → is_Some (articles d !! r.1);
  wf_fk_entity : ∀ k r,
    r ∈ junctions d k → r.2 ∈ (Entity.id <$> entityRows (entities d k))
}.

(** A classification table whose row ids JavaScript reads exactly, with
    room for [room] more rows below 2^53. *)
Definition tableExact (t : EntityTable) (room : nat) : Prop :=
  Forall (λ e, - Js.maxExact ≤ Entity.id e ≤ Js.maxExact) (entityRows t)
  ∧ - Js.maxExact ≤ nextRowid t
  ∧ nextRowid t + Z.of_nat room ≤ Js.maxExact.

Global Instance tableExact_dec t room : Decision (tableExact t room).
Proof. unfold tableExact. apply _. Defined.

Definition rowidsExact (d : Db) (room : EntityKind → nat) : Prop :=
  ∀ k, tableExact (entities d k) (room k).

(** A run keeps the store well formed. *)
Definition keepsWf (w w' : World) : Prop := wfDb (db w) → wfDb (db w').

(** A run keeps the rows of table Article. *)
Definition keepsArticles (w w' : World) : Prop := articles (db w') = articles (db w).

(** The names of the entities of kind [k] linked to an article. *)
Definition relatedNames (d : Db) (k : EntityKind) (id : string) : list string :=
  Entity.name <$> relatedEntities d k id.

(** The entity list of a returned article, by kind. *)
Definition articleEntities (k : EntityKind) (a : Article.t) : list Entity.t :=
  match k with
  | Author => Article.authors a
  | Keyword => Article.keywords a
  | Subject => Article.subjects a
  | Tag => Article.tags a
  | University => Article.universities a
  | Company => Article.companies a
  end.

(** The entity list of an update payload, by kind. *)
Definition payloadNames (k : EntityKind) (formData : PartialFormData.t)
    : option (list string) :=
  match k with
  | Author => PartialFormData.authors formData
  | Keyword => PartialFormData.keywords formData
  | Subject => PartialFormData.subjects formData
  | Tag => PartialFormData.tags formData
  | University => PartialFormData.universities formData
  | Company => PartialFormData.companies formData
  end.


(** Every character of a string passes a test. *)
Fixpoint allChars (p : ascii → bool) (s : string) : bool :=
  match s with
  | EmptyString => true
  | String c rest => p c && allChars p rest
  end.

(** The old and the new file names an article has in the migration. *)
Definition legacyName (k : FileKind) (article : string * string) : string :=
  article.1 +:+ kindExt k.

Definition currentName (k : FileKind) (article : string * string) : string :=
  makeName article.1 article.2 +:+ kindExt k.

(** Sample: a library with a legacy PDF and note of article 0001. *)
Definition legacyWorld : World :=
  {| db := db oneArticleWorld;
     fs := {| files := {[ (joinDir "storage" "pdfs", "0001.pdf") := tenBytes;
                          (joinDir "storage" "notes", "0001.docx") := tenBytes ]};
              dirs := {[ joinDir "storage" "pdfs"; joinDir "storage" "notes" ]};
              denied := ∅ |};
     allocated := allocated oneArticleWorld |}.

(** The classification and junction tables of kind [k] are unchanged. *)
Definition keepsKind (k : EntityKind) (w w' : World) : Prop :=
  entities (db w') k = entities (db w) k ∧ junctions (db w') k = junctions (db w) k.

(** The article [id] has a row. *)
Definition hasArticle (id : string) (w : World) : Prop :=
  is_Some (articles (db w) !! id).

(** The join of a junction table with its classification table, for one
    article: what [relatedEntities] computes from the two tables. *)
Definition joinEntities (links : list (string * Z)) (rows : list Entity.t) (id : string)
    : list Entity.t :=
  r ← filter (λ r, r.1 = id) links;
  filter (λ e, Entity.id e = r.2) rows.

(** Every file whose base name is not in [names] is unchanged. *)
Definition outsideNames (names : list string) (w w' : World) : Prop :=
  ∀ q : Path, q.2 ∉ names → files (fs w') !! q = files (fs w) !! q.

(** Files are removed, never added or rewritten, and the directories are
    unchanged. *)
Definition filesShrink (w w' : World) : Prop :=
  files (fs w') ⊆ files (fs w) ∧ dirs (fs w') = dirs (fs w).

(** An error of the file system. *)
Definition fsErrorOnly (e : Error) : Prop := ∃ c p, e = FsError c p.

(** What the file part of delete may do: the store is untouched, files
    are only removed, and only under the names in [names]. *)
Definition deleteFrame (names : list string) (w w' : World) : Prop :=
  fsOnly w w' ∧ outsideNames names w w' ∧ filesShrink w w'.

(** The external part of delete: the two mirrored files, when mirroring
    is on. *)
Definition deleteMirrored (id : string) (d : Db) : M unit :=
  match selectExternalSettings d with
  | Some {| externalStoragePath := Some extPath; useExternalStorage := Some use |} =>
      if negb (bool_decide (use = 0)) && Js.truthy extPath then
        unlinkIfExists (joinDir extPath "pdfs", id +:+ ".pdf") ;;
        unlinkIfExists (joinDir extPath "notes", id +:+ ".docx")
      else mret tt
  | _ => mret tt
  end.

(** Sample: the legacy library with its PDF directory write-protected. *)
Definition lockedLegacyWorld : World :=
  {| db := db legacyWorld;
     fs := {| files := files (fs legacyWorld); dirs := dirs (fs legacyWorld);
              denied := {[ joinDir "storage" "pdfs" ]} |};
     allocated := allocated legacyWorld |}.

(** Sample: a library with the current-scheme PDF of article 0001 stored
    and mirrored. *)
Definition storedWorld : World :=
  runCalls mirroredWorld
    [ CallCreate devEnv (sampleForm "Foo Bar" ["A. Doe"]);
      CallUploadPdf devEnv "0001" "Foo Bar" tenBytes ].

(** What the migration may do: the store is untouched, the directories
    are unchanged, and only files under the names in [names] are
    touched. *)
Definition renameFrame (names : list string) (w w' : World) : Prop :=
  fsOnly w w' ∧ outsideNames names w w'
  ∧ dirs (fs w') = dirs (fs w) ∧ denied (fs w') = denied (fs w).

(** The file names that the migration may touch: the legacy and the
    current names of the articles. *)
Definition migrationNames (articles : list (string * string)) : list string :=
  article ← articles;
  [ legacyName Pdf article; currentName Pdf article;
    legacyName Note article; currentName Note article ].

(** * Proofs *)

(** ** File names and identifiers on examples *)

Example makeName_sanitizes :
  makeName "0001" "Foo_Bar: a/b  " = "0001 - Foo Bar- a-b".
Proof. vm_compute. reflexivity. Qed.

Example articleFileName_strips :
  articleFileName "0001" "Foo_Bar: a/b" = "0001 - FooBar ab".
Proof. vm_compute. reflexivity. Qed.

Example formatArticleId_pads : formatArticleId 12 = "0012".
Proof. vm_compute. reflexivity. Qed.

Example formatArticleId_widens : formatArticleId 123456 = "123456".
Proof. vm_compute. reflexivity. Qed.

(** ** The handler monad *)

Ltac munfold :=
  unfold mbind, M_bind, mret, M_ret, throw, getDb, putDb, getFs, putFs,
    logAllocated, tryCatch, transaction in *.

Lemma tryCatch_rethrow {A} (m : M A) w : tryCatch m (λ e, throw e) w = m w.
Proof. munfold. destruct (m w) as [[a|e] w']; reflexivity. Qed.

Lemma bind_returned {A B} (m : M A) (f : A → M B) w a w' :
  m w = (Returned a, w') → (m ≫= f) w = f a w'.
Proof. intros H. munfold. rewrite H. reflexivity. Qed.

Lemma bind_thrown {A B} (m : M A) (f : A → M B) w e w' :
  m w = (Thrown e, w') → (m ≫= f) w = (Thrown e, w').
Proof. intros H. munfold. rewrite H. reflexivity. Qed.

Section Combinators.
Context {R : World → World → Prop} `{!Frame R} {E : Error → Prop}.

Lemma spec_ret {A} (a : A) : Spec R E (mret a).
Proof. intros w. split; [apply frame_refl | discriminate]. Qed.

Lemma spec_throw {A} (e : Error) : E e → Spec R E (throw e : M A).
Proof.
  intros He w. split; [apply frame_refl |].
  intros e' [= <-]. exact He.
Qed.

Lemma spec_getDb : Spec R E getDb.
Proof. intros w. split; [apply frame_refl | discriminate]. Qed.

Lemma spec_getFs : Spec R E getFs.
Proof. intros w. split; [apply frame_refl | discriminate]. Qed.

Lemma spec_bind {A B} (m : M A) (f : A → M B) :
  Spec R E m → (∀ a, Spec R E (f a)) → Spec R E (m ≫= f).
Proof.
  intros Hm Hf w. destruct (Hm w) as [Hr He].
  unfold mbind, M_bind. destruct (m w) as [[a|e] w'] eqn:Hmw; simpl in *.
  - destruct (Hf a w') as [Hr' He']. split; [|exact He'].
    eapply frame_trans; eassumption.
  - split; [exact Hr |]. intros e' [= <-]. apply He. reflexivity.
Qed.

Lemma spec_rethrow {A} (m : M A) : Spec R E m → Spec R E (tryCatch m (λ e, throw e)).
Proof. intros Hm w. rewrite tryCatch_rethrow. apply Hm. Qed.

Lemma spec_swallow {A} (E' : Error → Prop) (m : M A) (a : A) :
  Spec R E' m → Spec R E (tryCatch m (λ _, mret a)).
Proof.
  intros Hm w. destruct (Hm w) as [Hr _]. unfold tryCatch.
  destruct (m w) as [[x|e] w']; simpl in *; (split; [exact Hr | discriminate]).
Qed.

Lemma spec_transaction {A} (m : M A) : Spec R E m → Spec R E (transaction m).
Proof.
  intros Hm w. destruct (Hm w) as [Hr He]. unfold transaction.
  destruct (m w) as [[x|e] w']; simpl in *.
  - split; [exact Hr | discriminate].
  - split; [apply frame_rollback; exact Hr | exact He].
Qed.

Lemma spec_forEach {A} (l : list A) (f : A → M unit) :
  (∀ x, Spec R E (f x)) → Spec R E (forEach l f).
Proof.
  intros Hf. induction l as [|x l IH]; simpl.
  - apply spec_ret.
  - apply spec_bind; [apply Hf | intros _; exact IH].
Qed.

End Combinators.

Lemma spec_weaken {A} (R R' : World → World → Prop) (E E' : Error → Prop) (m : M A) :
  (∀ w w', R w w' → R' w w') → (∀ e, E e → E' e) → Spec R E m → Spec R' E' m.
Proof.
  intros HR HE Hm w. destruct (Hm w) as [Hr He]. split; [apply HR, Hr |].
  intros e Heq. apply HE, He, Heq.
Qed.

Lemma spec_noError {A} (R : World → World → Prop) (E : Error → Prop) (m : M A) :
  Spec R noError m → Spec R E m.
Proof. apply spec_weaken; [auto | intros e []]. Qed.

(** What a specification says about one run. *)
Lemma spec_run {A} R E (m : M A) w r w' :
  Spec R E m → m w = (r, w') → R w w' ∧ ∀ e, r = Thrown e → E e.
Proof. intros Hm Heq. specialize (Hm w). rewrite Heq in Hm. exact Hm. Qed.

(** ** Frame relations *)

Global Instance dbOnly_frame : Frame dbOnly.
Proof.
  split; unfold dbOnly.
  - intros w. auto.
  - intros a b c (?&?&?&?) (?&?&?&?). split_and!; congruence.
  - intros w w' (?&?&?&?). simpl. auto.
Qed.

Global Instance fsOnly_frame : Frame fsOnly.
Proof.
  split; unfold fsOnly.
  - intros w. auto.
  - intros a b c [? ?] [? ?]. split; congruence.
  - intros w w' [? ?]. simpl. auto.
Qed.

Global Instance sameCounter_frame : Frame sameCounter.
Proof.
  split; unfold sameCounter.
  - intros w. auto.
  - intros a b c [? ?] [? ?]. split; congruence.
  - intros w w' [? ?]. simpl. auto.
Qed.

Global Instance otherFiles_frame name : Frame (otherFiles name).
Proof.
  split; unfold otherFiles.
  - intros w q _. reflexivity.
  - intros a b c Hab Hbc q Hq. rewrite Hbc, Hab by exact Hq. reflexivity.
  - intros w w' H q Hq. simpl. apply H, Hq.
Qed.

Lemma dbOnly_sameCounter w w' : dbOnly w w' → sameCounter w w'.
Proof. intros (?&?&?&?). split; assumption. Qed.

Lemma fsOnly_sameCounter w w' : fsOnly w w' → sameCounter w w'.
Proof. intros [Hd Ha]. split; [rewrite Hd; reflexivity | exact Ha]. Qed.


(** ** Statements and file-system calls against the frames *)

Ltac spec_prim :=
  let w := fresh "w" in
  intros w; munfold; simpl;
  repeat (case_match; simpl in *);
  (split; [| intros ? ?; simplify_eq; try done; eauto]).

Lemma getOrCreateEntity_dbOnly k name : Spec dbOnly noError (getOrCreateEntity k name).
Proof. unfold getOrCreateEntity. spec_prim; repeat split. Qed.

Lemma linkArticleEntity_dbOnly k id e : Spec dbOnly foreignKeyError (linkArticleEntity k id e).
Proof. unfold linkArticleEntity, foreignKeyError. spec_prim; repeat split. Qed.

Lemma clearArticleRelations_dbOnly k id : Spec dbOnly noError (clearArticleRelations k id).
Proof. unfold clearArticleRelations. spec_prim; repeat split. Qed.

Lemma insertArticle_dbOnly env id fileName formData :
  Spec dbOnly sqliteError (insertArticle env id fileName formData).
Proof. unfold insertArticle, sqliteError. spec_prim; repeat split. Qed.

Lemma updateArticleRow_dbOnly env id formData :
  Spec dbOnly noError (updateArticleRow env id formData).
Proof. unfold updateArticleRow. spec_prim; repeat split. Qed.

Lemma deleteArticleRow_sameCounter id : Spec sameCounter noError (deleteArticleRow id).
Proof. unfold deleteArticleRow. spec_prim; repeat split. Qed.

Lemma foreignKey_sqlite e : foreignKeyError e → sqliteError e.
Proof. intros ->. exists FOREIGNKEY. reflexivity. Qed.

Lemma linkNames_dbOnly k id names : Spec dbOnly foreignKeyError (linkNames k id names).
Proof.
  unfold linkNames. apply spec_forEach. intros name. apply spec_bind.
  - apply spec_noError, getOrCreateEntity_dbOnly.
  - intros e. apply linkArticleEntity_dbOnly.
Qed.

Lemma replaceLinks_dbOnly k id names : Spec dbOnly foreignKeyError (replaceLinks k id names).
Proof.
  destruct names as [l|]; simpl; [| apply spec_ret].
  apply spec_bind; [| intros _; apply linkNames_dbOnly].
  apply spec_noError, clearArticleRelations_dbOnly.
Qed.

(** The file-system calls. *)

Lemma existsSync_spec R `{!Frame R} E p : Spec R E (existsSync p).
Proof. unfold existsSync. apply spec_bind; [apply spec_getFs | intros f; apply spec_ret]. Qed.

Lemma existsDirSync_spec R `{!Frame R} E dir : Spec R E (existsDirSync dir).
Proof. unfold existsDirSync. apply spec_bind; [apply spec_getFs | intros f; apply spec_ret]. Qed.

Lemma mkdirSync_fsOnly dir : Spec fsOnly anyError (mkdirSync dir).
Proof. unfold mkdirSync, anyError. spec_prim; repeat split. Qed.

Lemma writeAt_fsOnly p data : Spec fsOnly anyError (writeAt p data).
Proof. unfold writeAt, anyError. spec_prim; repeat split. Qed.

Lemma copyFileSync_fsOnly src dst : Spec fsOnly anyError (copyFileSync src dst).
Proof. unfold copyFileSync, writeAt, anyError. spec_prim; repeat split. Qed.

Lemma unlinkSync_fsOnly p : Spec fsOnly anyError (unlinkSync p).
Proof. unfold unlinkSync, anyError. spec_prim; repeat split. Qed.

Lemma ensureDir_fsOnly dir : Spec fsOnly anyError (ensureDir dir).
Proof.
  unfold ensureDir. apply spec_bind; [apply existsDirSync_spec; apply _ |].
  intros [|]; [apply spec_ret | apply mkdirSync_fsOnly].
Qed.

Lemma unlinkIfExists_fsOnly p : Spec fsOnly anyError (unlinkIfExists p).
Proof.
  unfold unlinkIfExists. apply spec_bind; [apply existsSync_spec; apply _ |].
  intros [|]; [apply unlinkSync_fsOnly | apply spec_ret].
Qed.

Lemma copyToExternalBody_fsOnly p subdir name :
  Spec fsOnly anyError (copyToExternalBody p subdir name).
Proof.
  unfold copyToExternalBody. apply spec_bind; [apply spec_getDb |].
  intros d. case_match; [apply spec_ret |].
  apply spec_bind; [apply ensureDir_fsOnly | intros _; apply copyFileSync_fsOnly].
Qed.

Lemma copyToExternalIfEnabled_fsOnly p subdir name :
  Spec fsOnly noError (copyToExternalIfEnabled p subdir name).
Proof.
  unfold copyToExternalIfEnabled. eapply spec_swallow. apply copyToExternalBody_fsOnly.
Qed.

(** ** The handlers against the frames *)

Lemma createArticle_dbOnly env nextId fileName formData :
  Spec dbOnly sqliteError (createArticle env nextId fileName formData).
Proof.
  unfold createArticle. apply spec_transaction.
  apply spec_bind; [apply insertArticle_dbOnly | intros _].
  repeat (apply spec_bind; [| intros _]);
    eapply spec_weaken; try apply linkNames_dbOnly; auto using foreignKey_sqlite.
Qed.

Lemma updateArticle_dbOnly env id formData :
  Spec dbOnly foreignKeyError (updateArticle env id formData).
Proof.
  unfold updateArticle. apply spec_transaction.
  apply spec_bind; [apply spec_noError, updateArticleRow_dbOnly | intros _].
  repeat (apply spec_bind; [| intros _]); apply replaceLinks_dbOnly.
Qed.

Lemma articlesUpdate_dbOnly env id formData :
  Spec dbOnly foreignKeyError (articlesUpdate env id formData).
Proof.
  unfold articlesUpdate. apply spec_rethrow.
  apply spec_bind; [apply updateArticle_dbOnly | intros _].
  apply spec_bind; [apply spec_getDb | intros d; apply spec_ret].
Qed.

Lemma articlesDelete_sameCounter env id : Spec sameCounter anyError (articlesDelete env id).
Proof.
  assert (Hu : ∀ p, Spec sameCounter anyError (unlinkIfExists p)).
  { intros p. eapply spec_weaken; [apply fsOnly_sameCounter | | apply unlinkIfExists_fsOnly].
    auto. }
  unfold articlesDelete. apply spec_rethrow.
  apply spec_bind; [apply Hu | intros _].
  apply spec_bind; [apply Hu | intros _].
  apply spec_bind; [apply spec_getDb | intros d].
  apply spec_bind; [| intros _; apply spec_noError, deleteArticleRow_sameCounter].
  repeat case_match; try apply spec_ret.
  apply spec_bind; [apply Hu | intros _; apply Hu].
Qed.

Lemma filesUploadPdf_fsOnly env id title buf :
  Spec fsOnly anyError (filesUploadPdf env id title buf).
Proof.
  unfold filesUploadPdf. apply spec_rethrow.
  apply spec_bind; [apply ensureDir_fsOnly | intros _].
  apply spec_bind; [apply writeAt_fsOnly | intros _].
  apply spec_bind; [apply spec_noError, copyToExternalIfEnabled_fsOnly | intros _].
  apply spec_ret.
Qed.

(** ** Numbers and the printing of identifiers *)

Lemma toNumber_exact n : exactInteger n → Js.toNumber n = n.
Proof.
  unfold exactInteger, Js.maxExact. intros Hn.
  assert (Hcases : n = 9007199254740992 ∨ n = -9007199254740992
                   ∨ Z.abs n < 9007199254740992) by lia.
  destruct Hcases as [-> | [-> | Hlt]]; [vm_compute; reflexivity .. |].
  unfold Js.toNumber. rewrite bool_decide_eq_true_2; [reflexivity |].
  destruct (decide (Z.abs n = 0)) as [-> | Hpos]; [simpl; lia |].
  change 9007199254740992 with (2 ^ 53) in Hlt.
  apply Z.log2_lt_pow2 in Hlt; lia.
Qed.

Lemma sqliteSucc_exact n : exactInteger n → n < Js.maxExact → sqliteSucc n = n + 1.
Proof.
  unfold exactInteger, Js.maxExact, sqliteSucc. intros Hn Hlt.
  rewrite bool_decide_eq_true_2 by lia. reflexivity.
Qed.

Lemma String_exact n : exactInteger n → Js.String_ n = pretty n.
Proof.
  unfold exactInteger, Js.String_. intros Hn.
  rewrite bool_decide_eq_true_2 by lia. reflexivity.
Qed.

Example toNumber_rounds_to_even :
  Js.toNumber (Js.maxExact + 1) = Js.maxExact
  ∧ Js.toNumber (Js.maxExact + 2) = Js.maxExact + 2
  ∧ Js.toNumber (Js.maxExact + 3) = Js.maxExact + 4.
Proof. split_and!; vm_compute; reflexivity. Qed.

Example String_of_large_numbers :
  Js.String_ (2 ^ 53) = "9007199254740992"
  ∧ Js.String_ (2 ^ 60) = "1152921504606847000"
  ∧ Js.String_ (2 ^ 63) = "9223372036854776000"
  ∧ Js.String_ (- 2 ^ 63) = "-9223372036854776000"
  ∧ Js.String_ (2 ^ 70) = "1.1805916207174113e+21".
Proof. split_and!; vm_compute; reflexivity. Qed.

Lemma pretty_N_go_head x s :
  (0 < x)%N → ∃ c r, pretty_N_go x s = String c r ∧ c ≠ "0"%char.
Proof.
  revert s. induction (N.lt_wf_0 x) as [x _ IH]. intros s Hx.
  rewrite pretty_N_go_step by exact Hx.
  destruct (decide (x < 10)%N) as [Hlt|Hge].
  - rewrite N.div_small, pretty_N_go_0 by exact Hlt.
    rewrite N.mod_small by exact Hlt.
    eexists _, _. split; [reflexivity |].
    intros Hzero. apply (pretty_N_char_inj x 0) in Hzero; lia.
  - apply IH.
    + apply N.div_lt; lia.
    + apply N.div_str_pos. lia.
Qed.

Lemma pretty_head_nonzero (n : Z) :
  n ≠ 0 → ∃ c r, pretty n = String c r ∧ c ≠ "0"%char.
Proof.
  intros Hn. unfold pretty, pretty_Z.
  destruct n as [|p|p]; [done | |].
  - unfold pretty, pretty_positive, pretty, pretty_N.
    rewrite decide_False by discriminate.
    apply pretty_N_go_head. lia.
  - eexists _, _. split; [reflexivity | discriminate].
Qed.

Lemma stripZeros_repeat k s : stripZeros (Js.repeatChar k "0" +:+ s) = stripZeros s.
Proof. induction k as [|k IH]; simpl; [reflexivity | exact IH]. Qed.

Lemma stripZeros_formatArticleId n :
  exactInteger n →
  stripZeros (formatArticleId n) = if decide (n = 0) then EmptyString else pretty n.
Proof.
  intros Hex. unfold formatArticleId, Js.padStart.
  rewrite stripZeros_repeat, (String_exact n Hex).
  destruct (decide (n = 0)) as [->|Hn]; [reflexivity |].
  destruct (pretty_head_nonzero n Hn) as (c & r & -> & Hc). simpl.
  rewrite bool_decide_eq_false_2 by exact Hc. reflexivity.
Qed.

Lemma formatArticleId_inj a b :
  exactInteger a → exactInteger b → formatArticleId a = formatArticleId b → a = b.
Proof.
  intros Hea Heb Hab. apply (f_equal stripZeros) in Hab.
  rewrite !stripZeros_formatArticleId in Hab by assumption.
  destruct (decide (a = 0)) as [->|Ha], (decide (b = 0)) as [->|Hb]; [reflexivity | | |].
  - destruct (pretty_head_nonzero b Hb) as (c & r & Hs & _). congruence.
  - destruct (pretty_head_nonzero a Ha) as (c & r & Hs & _). congruence.
  - apply (inj pretty) in Hab. exact Hab.
Qed.

(** ** The identifier allocator *)

Lemma getNextArticleId_run w :
  getNextArticleId w =
    (Returned (nextArticleId (db w)),
     {| db := advanceCounter (db w);
        fs := fs w;
        allocated := allocated w ++ [nextArticleId (db w)] |}).
Proof.
  unfold getNextArticleId, getAndIncrement, nextArticleId, advanceCounter, counterStart.
  munfold. simpl.
  destruct (idCounter (db w)) as [c|]; reflexivity.
Qed.

(** The world in which create runs its transaction. *)
Lemma articlesCreate_run env formData w :
  articlesCreate env formData w =
  if bool_decide (is_Some (duplicateCheck (db w) (ArticleFormData.title formData)
                             (ArticleFormData.authors formData)))
  then (Thrown ArticleAlreadyExists, w)
  else
    let nextId := nextArticleId (db w) in
    match createArticle env nextId
            (articleFileName nextId (ArticleFormData.title formData)) formData
            {| db := advanceCounter (db w);
               fs := fs w;
               allocated := allocated w ++ [nextId] |} with
    | (Returned _, w2) => (Returned (getArticleWithRelations (db w2) nextId), w2)
    | (Thrown e, w2) => (Thrown e, w2)
    end.
Proof.
  unfold articlesCreate. rewrite tryCatch_rethrow.
  unfold mbind at 1, M_bind at 1, getDb at 1.
  case_bool_decide; [reflexivity |].
  erewrite bind_returned by apply getNextArticleId_run.
  unfold mbind at 1, M_bind at 1. simpl.
  destruct (createArticle _ _ _ _ _) as [[[]|e] w2]; reflexivity.
Qed.

Lemma getArticleWithRelations_id d id a :
  getArticleWithRelations d id = Some a → Article.id a = id.
Proof.
  unfold getArticleWithRelations. destruct (articles d !! id); [| discriminate].
  intros [= <-]. reflexivity.
Qed.

(** A step returns no identifier and leaves the counter or moves it, or
    it returns the identifier of the counter and moves the counter. *)
Lemma stepId_counter w s :
  (stepId w s = None
   ∧ (idCounter (db (stepWorld w s)) = idCounter (db w)
      ∨ idCounter (db (stepWorld w s)) = Some (sqliteSucc (counterStart (db w)))))
  ∨ (stepId w s = Some (nextArticleId (db w))
     ∧ idCounter (db (stepWorld w s)) = Some (sqliteSucc (counterStart (db w)))).
Proof.
  destruct s as [|[env formData | env id formData | env id | env id title buf]]; simpl.
  - rewrite getNextArticleId_run. simpl. right. split; reflexivity.
  - rewrite articlesCreate_run. case_bool_decide; [left; split; [reflexivity | left; reflexivity] |].
    cbv zeta.
    match goal with |- context [createArticle ?e ?i ?n ?f ?w1] =>
      destruct (createArticle_dbOnly e i n f w1) as [(_ & _ & Hc & _) _];
      destruct (createArticle e i n f w1) as [[[]|err] w2] end; simpl in *.
    + destruct (getArticleWithRelations (db w2) (nextArticleId (db w))) as [a|] eqn:Hget.
      * right. rewrite (getArticleWithRelations_id _ _ _ Hget). split; [reflexivity | exact Hc].
      * left. split; [reflexivity | right; exact Hc].
    + left. split; [reflexivity | right; exact Hc].
  - left. split; [reflexivity | left].
    apply (dbOnly_sameCounter w), articlesUpdate_dbOnly.
  - left. split; [reflexivity | left]. apply (articlesDelete_sameCounter env id w).
  - left. split; [reflexivity | left].
    apply (fsOnly_sameCounter w), filesUploadPdf_fsOnly.
Qed.

Lemma returnedIds_numbers steps w :
  exactInteger (counterStart (db w)) →
  counterStart (db w) + Z.of_nat (length steps) ≤ Js.maxExact →
  ∃ ns : list Z,
    returnedIds w steps = formatArticleId <$> ns
    ∧ Forall (λ n, counterStart (db w) ≤ n < counterStart (db w) + Z.of_nat (length steps)) ns
    ∧ StronglySorted Z.lt ns.
Proof.
  revert w. induction steps as [|s steps IH]; intros w Hex Hlen.
  - exists []. split_and!; constructor.
  - simpl length in *. simpl returnedIds.
    remember (counterStart (db w)) as c eqn:Ec.
    assert (Hlt : c < Js.maxExact) by lia.
    assert (Hsucc : sqliteSucc c = c + 1) by (apply sqliteSucc_exact; assumption).
    assert (Hcases : (stepId w s = None ∧ c ≤ counterStart (db (stepWorld w s)) ≤ c + 1)
                     ∨ (stepId w s = Some (formatArticleId c)
                        ∧ counterStart (db (stepWorld w s)) = c + 1)).
    { destruct (stepId_counter w s) as [[Hid [Hc|Hc]] | [Hid Hc]].
      - left. split; [exact Hid |]. unfold counterStart. rewrite Hc.
        fold (counterStart (db w)). lia.
      - left. split; [exact Hid |]. unfold counterStart at 1 2. rewrite Hc. simpl.
        rewrite <- Ec, Hsucc. lia.
      - right. unfold nextArticleId in Hid. rewrite <- Ec in Hid.
        rewrite (toNumber_exact c Hex) in Hid. split; [exact Hid |].
        unfold counterStart at 1. rewrite Hc. simpl. rewrite <- Ec. exact Hsucc. }
    unfold exactInteger in *.
    destruct Hcases as [[Hid Hc] | [Hid Hc]]; rewrite Hid; simpl.
    + destruct (IH (stepWorld w s)) as (ns & Hids & Hb & Hs); [lia | lia |].
      exists ns. split_and!; [exact Hids | | exact Hs].
      eapply Forall_impl; [exact Hb |]. simpl. intros n Hn. lia.
    + destruct (IH (stepWorld w s)) as (ns & Hids & Hb & Hs); [lia | lia |].
      exists (c :: ns). rewrite Hids, fmap_cons. split_and!; [reflexivity | |].
      * constructor; [lia |].
        eapply Forall_impl; [exact Hb |]. simpl. intros n Hn. lia.
      * constructor; [exact Hs |].
        eapply Forall_impl; [exact Hb |]. simpl. intros n Hn. lia.
Qed.

Lemma StronglySorted_lt_NoDup (ns : list Z) : StronglySorted Z.lt ns → NoDup ns.
Proof.
  induction 1 as [|n ns _ IH Hall]; constructor; [| exact IH].
  intros Hin. rewrite Forall_forall in Hall. specialize (Hall n Hin). lia.
Qed.

(** ** C1: identifiers are never reused *)

(** C1 (amended).  A session is any sequence of calls of the allocator
    and of the create, update, delete and upload handlers.  When the
    counter starts at an integer of magnitude at most 2^53 and the
    session is short enough for it to stay at most 2^53, the identifiers
    that the allocator and the successful creates return, in the order of
    the calls, are the prints of strictly increasing integers from the
    range of the counter, and no identifier is returned twice, whatever
    articles the interleaved deletes remove. *)
Theorem returned_ids_strictly_increasing (steps : list Step) (w : World) :
  exactInteger (counterStart (db w)) →
  counterStart (db w) + Z.of_nat (length steps) ≤ Js.maxExact →
  ∃ ns : list Z,
    returnedIds w steps = formatArticleId <$> ns
    ∧ Forall (λ n, counterStart (db w) ≤ n < counterStart (db w) + Z.of_nat (length steps)) ns
    ∧ StronglySorted Z.lt ns
    ∧ NoDup (returnedIds w steps).
Proof.
  intros Hex Hlen.
  destruct (returnedIds_numbers steps w Hex Hlen) as (ns & Hids & Hb & Hs).
  exists ns. split_and!; [exact Hids | exact Hb | exact Hs |].
  rewrite Hids. apply NoDup_fmap_2_strong; [| apply StronglySorted_lt_NoDup, Hs].
  rewrite Forall_forall in Hb. unfold exactInteger in *.
  intros a b Ha Hb' Hab. apply formatArticleId_inj; [| | exact Hab]; unfold exactInteger.
  - specialize (Hb a Ha). lia.
  - specialize (Hb b Hb'). lia.
Qed.

Lemma returned_ids_strictly_increasing_witness :
  returnedIds emptyWorld (Allocate :: recreateSteps "0002") = ["0001"; "0002"; "0003"]
  ∧ NoDup (returnedIds emptyWorld (Allocate :: recreateSteps "0002")).
Proof.
  split; [vm_compute; reflexivity |].
  destruct (returned_ids_strictly_increasing (Allocate :: recreateSteps "0002") emptyWorld)
    as (ns & _ & _ & _ & Hnd).
  - vm_compute. split; discriminate.
  - vm_compute. discriminate.
  - exact Hnd.
Defined.

(** C1 as stated fails: with the counter at 2^53, the next counter value
    2^53 + 1 is read back as the number 2^53.  After create and delete, a
    second create returns the identifier of the first; two calls of the
    allocator in a row return the same identifier. *)
Lemma identifier_returned_twice_from_2_pow_53 :
  idCounter (db saturatedWorld) = Some (2 ^ 53)
  ∧ returnedIds saturatedWorld (recreateSteps "9007199254740992")
    = ["9007199254740992"; "9007199254740992"]
  ∧ returnedIds saturatedWorld [Allocate; Allocate]
    = ["9007199254740992"; "9007199254740992"]
  ∧ idCounter (db (stepWorld (stepWorld saturatedWorld Allocate) Allocate))
    = Some (2 ^ 53 + 2).
Proof. split_and!; vm_compute; reflexivity. Qed.

(** ** C2: what a failed create leaves behind *)






(** ** C3: the files an article delete removes *)

(** C3 (the code at the failing input).  External mirroring is on;
    article 0001 is created, its PDF is stored and mirrored under the
    current naming scheme, and the article is deleted.  The row is gone,
    and both the primary and the mirrored PDF are still on disk: the
    delete handler looks only for the bare-id names. *)
Theorem delete_leaves_current_scheme_files :
  (articlesGetById "0001" deleteScenario).1 = Returned None
  ∧ files (fs deleteScenario) !! (joinDir "storage" "pdfs", "0001 - Foo Bar.pdf")
    = Some tenBytes
  ∧ files (fs deleteScenario) !! (joinDir "cloud" "pdfs", "0001 - Foo Bar.pdf")
    = Some tenBytes.
Proof. split_and!; vm_compute; reflexivity. Qed.

(** ** C4 and C9: the duplicate guard *)

Lemma duplicateCheck_found d title authors id row name :
  articles d !! id = Some row →
  Row.title row = title →
  name ∈ authors →
  name ∈ authorNames d id →
  is_Some (duplicateCheck d title authors).
Proof.
  intros Hrow Htitle Hin Hname.
  unfold authorNames, relatedEntities in Hname.
  apply list_elem_of_fmap in Hname as (e & -> & He).
  apply list_elem_of_bind in He as (r & He & Hr).
  apply list_elem_of_filter in He as [Hid He].
  apply list_elem_of_filter in Hr as [Hr1 Hr].
  unfold duplicateCheck. apply head_is_Some.
  intros Hnil.
  assert (Hmem : id ∈ (aa ← junctions d Author;
                       a ← option_list (articles d !! aa.1);
                       au ← filter (λ e, Entity.id e = aa.2) (entityRows (entities d Author));
                       if bool_decide (Row.title a = title)
                          && bool_decide (Entity.name au ∈ authors)
                       then [aa.1] else [])).
  { apply list_elem_of_bind. exists r. split; [| exact Hr].
    rewrite Hr1, Hrow. simpl. rewrite app_nil_r.
    apply list_elem_of_bind. exists e. split.
    - rewrite !bool_decide_eq_true_2 by assumption. simpl. apply list_elem_of_here.
    - apply list_elem_of_filter. split; assumption. }
  rewrite Hnil in Hmem. inversion Hmem.
Qed.

Lemma articlesCreate_duplicate env formData w :
  is_Some (duplicateCheck (db w) (ArticleFormData.title formData)
             (ArticleFormData.authors formData)) →
  articlesCreate env formData w = (Thrown ArticleAlreadyExists, w).
Proof.
  intros H. rewrite articlesCreate_run. rewrite bool_decide_eq_true_2 by exact H.
  reflexivity.
Qed.

(** C4 (amended).  When an article with title T and a non-empty author
    set A exists, creating an article with the same title and an author
    list holding the same names, in any order, throws the duplicate error
    before anything is written: the world is unchanged. *)
Theorem create_same_title_and_authors_rejected env formData w id row :
  articles (db w) !! id = Some row →
  Row.title row = ArticleFormData.title formData →
  (∀ name, name ∈ ArticleFormData.authors formData ↔ name ∈ authorNames (db w) id) →
  ArticleFormData.authors formData ≠ [] →
  articlesCreate env formData w = (Thrown ArticleAlreadyExists, w).
Proof.
  intros Hrow Htitle Hset Hne.
  destruct (ArticleFormData.authors formData) as [|name rest] eqn:Hauthors; [done |].
  apply articlesCreate_duplicate. rewrite Hauthors.
  assert (Hin : name ∈ name :: rest) by apply list_elem_of_here.
  eapply duplicateCheck_found; [exact Hrow | exact Htitle | exact Hin |].
  apply Hset, Hin.
Qed.

Lemma create_same_title_and_authors_rejected_witness :
  articlesCreate laterEnv (sampleForm "Foo Bar" ["A. Doe"; "A. Doe"]) oneArticleWorld
  = (Thrown ArticleAlreadyExists, oneArticleWorld).
Proof.
  eapply (create_same_title_and_authors_rejected laterEnv
            (sampleForm "Foo Bar" ["A. Doe"; "A. Doe"]) oneArticleWorld "0001").
  - vm_compute. reflexivity.
  - reflexivity.
  - intros name. change (authorNames (db oneArticleWorld) "0001") with ["A. Doe"].
    simpl. rewrite !elem_of_cons. tauto.
  - discriminate.
Defined.

(** C4 as stated fails for the empty author set: a second article with
    the same title and no author is created. *)
Lemma create_duplicate_without_authors_accepted :
  Row.title <$> articles (db noAuthorWorld) !! "0001" = Some "Foo Bar"
  ∧ authorNames (db noAuthorWorld) "0001" = []
  ∧ ∃ a w',
      articlesCreate laterEnv (sampleForm "Foo Bar" []) noAuthorWorld = (Returned (Some a), w')
      ∧ Article.id a = "0002" ∧ Article.title a = "Foo Bar" ∧ Article.authors a = [].
Proof.
  split_and!; [vm_compute; reflexivity | vm_compute; reflexivity |].
  eexists _, _. split_and!; reflexivity.
Qed.

(** C9.  Create throws the duplicate error, before anything is written,
    as soon as some article has the payload's title and one author name
    in common with the payload's author list; the author sets need not be
    equal. *)
Theorem create_rejected_on_one_shared_author env formData w id row name :
  articles (db w) !! id = Some row →
  Row.title row = ArticleFormData.title formData →
  name ∈ ArticleFormData.authors formData →
  name ∈ authorNames (db w) id →
  articlesCreate env formData w = (Thrown ArticleAlreadyExists, w).
Proof.
  intros Hrow Htitle Hin Hname. apply articlesCreate_duplicate.
  eapply duplicateCheck_found; eassumption.
Qed.

Lemma create_rejected_on_one_shared_author_witness :
  authorNames (db oneArticleWorld) "0001" = ["A. Doe"]
  ∧ articlesCreate laterEnv (sampleForm "Foo Bar" ["B. Roe"; "A. Doe"; "C. Poe"]) oneArticleWorld
    = (Thrown ArticleAlreadyExists, oneArticleWorld).
Proof.
  split; [reflexivity |].
  eapply (create_rejected_on_one_shared_author laterEnv
            (sampleForm "Foo Bar" ["B. Roe"; "A. Doe"; "C. Poe"]) oneArticleWorld
            "0001" _ "A. Doe").
  - vm_compute. reflexivity.
  - reflexivity.
  - simpl. rewrite !elem_of_cons. tauto.
  - change (authorNames (db oneArticleWorld) "0001") with ["A. Doe"].
    apply list_elem_of_here.
Defined.

(** ** C7: update with the empty payload *)

Lemma updateColumns_emptyPayload env row :
  updateColumns env emptyPayload row = withUpdatedAt (datetimeNow env) row.
Proof. reflexivity. Qed.

Lemma articlesUpdate_emptyPayload_run env id w :
  articlesUpdate env id emptyPayload w =
    let d := setArticles (alter (updateColumns env emptyPayload) id (articles (db w))) (db w) in
    (Returned (getArticleWithRelations d id),
     {| db := d; fs := fs w; allocated := allocated w |}).
Proof. reflexivity. Qed.

(** C7.  For an existing article, update with the empty payload returns
    the article that get returned before with only its last-update time
    replaced by the current time; in the store the row of the article
    differs from the old one in the last-update column only, every other
    row, the classification and junction tables, the counter, the
    settings and the files are unchanged. *)
Theorem update_empty_payload_touches_only_updatedAt env id w row :
  articles (db w) !! id = Some row →
  ∃ a w',
    getArticleWithRelations (db w) id = Some a
    ∧ articlesUpdate env id emptyPayload w
      = (Returned (Some (articleWithUpdatedAt (orUndefined (Some (datetimeNow env))) a)), w')
    ∧ articles (db w') !! id = Some (withUpdatedAt (datetimeNow env) row)
    ∧ (∀ id', id' ≠ id → articles (db w') !! id' = articles (db w) !! id')
    ∧ entities (db w') = entities (db w)
    ∧ junctions (db w') = junctions (db w)
    ∧ idCounter (db w') = idCounter (db w)
    ∧ userSettings (db w') = userSettings (db w)
    ∧ fs w' = fs w.
Proof.
  intros Hrow. rewrite articlesUpdate_emptyPayload_run. cbv zeta.
  assert (Hnew : alter (updateColumns env emptyPayload) id (articles (db w)) !! id
                 = Some (withUpdatedAt (datetimeNow env) row)).
  { rewrite lookup_alter_eq, Hrow. reflexivity. }
  eexists _, _. split_and!.
  - unfold getArticleWithRelations. rewrite Hrow. reflexivity.
  - unfold getArticleWithRelations at 1. simpl. rewrite Hnew. reflexivity.
  - exact Hnew.
  - intros id' Hne. simpl. apply lookup_alter_ne. congruence.
  - reflexivity.
  - reflexivity.
  - reflexivity.
  - reflexivity.
  - reflexivity.
Qed.

Lemma update_empty_payload_touches_only_updatedAt_witness :
  is_Some (articles (db oneArticleWorld) !! "0001")
  ∧ ∃ a w',
      getArticleWithRelations (db oneArticleWorld) "0001" = Some a
      ∧ articlesUpdate laterEnv "0001" emptyPayload oneArticleWorld
        = (Returned (Some (articleWithUpdatedAt (Some "2025-02-02 12:30:00") a)), w')
      ∧ Article.updatedAt a = Some "2025-01-01 10:00:00".
Proof.
  assert (H : ∃ row, articles (db oneArticleWorld) !! "0001" = Some row).
  { eexists. vm_compute. reflexivity. }
  destruct H as [row Hrow]. split; [exists row; exact Hrow |].
  destruct (update_empty_payload_touches_only_updatedAt laterEnv "0001" oneArticleWorld row Hrow)
    as (a & w' & Hget & Hupd & _).
  exists a, w'. split_and!; [exact Hget | exact Hupd |].
  revert Hget. vm_compute. intros [= <-]. reflexivity.
Defined.

(** ** C5: update of an unknown identifier *)

Lemma alter_unknown {A} (f : A → A) (id : string) (m : gmap string A) :
  m !! id = None → alter f id m = m.
Proof.
  intros H. apply map_eq. intros j. destruct (decide (id = j)) as [<-|Hne].
  - rewrite lookup_alter_eq, H. reflexivity.
  - apply lookup_alter_ne. exact Hne.
Qed.

Lemma unknownId_bind id b1 b2 (m1 m2 : M unit) :
  unknownIdSpec id b1 m1 → unknownIdSpec id b2 m2 →
  unknownIdSpec id (b1 || b2) (m1 ;; m2).
Proof.
  intros H1 H2 w Hw. specialize (H1 w Hw). destruct b1; simpl.
  - destruct H1 as [w' H1]. exists w'. apply bind_thrown, H1.
  - destruct H1 as (w' & H1 & Ha). erewrite bind_returned by exact H1.
    specialize (H2 w'). rewrite Ha in H2. specialize (H2 Hw).
    destruct b2.
    + exact H2.
    + destruct H2 as (w2 & H2 & Ha2). exists w2. split; [exact H2 | congruence].
Qed.

Lemma updateArticleRow_unknown env id formData :
  unknownIdSpec id false (updateArticleRow env id formData).
Proof.
  intros w Hw. eexists. split; [reflexivity |]. simpl.
  apply alter_unknown, Hw.
Qed.

Lemma not_in_cleared (id : string) (e : Z) (rows : list (string * Z)) :
  (id, e) ∉ filter (λ r, r.1 ≠ id) rows.
Proof. intros H. apply list_elem_of_filter in H as [H _]. apply H. reflexivity. Qed.

Lemma replaceLinks_unknown k id names :
  unknownIdSpec id (suppliesName names) (replaceLinks k id names).
Proof.
  intros w Hw. destruct names as [[|name rest]|]; simpl.
  - eexists. split; reflexivity.
  - unfold clearArticleRelations, linkNames, forEach, getOrCreateEntity, linkArticleEntity.
    munfold. simpl.
    destruct (List.find _ _) as [entity|]; simpl.
    + rewrite decide_True by reflexivity.
      rewrite bool_decide_eq_false_2 by apply not_in_cleared.
      rewrite Hw. rewrite (bool_decide_eq_false_2 (is_Some None)) by (intros [? [=]]).
      simpl. eexists. reflexivity.
    + rewrite decide_True by reflexivity.
      rewrite bool_decide_eq_false_2 by apply not_in_cleared.
      rewrite Hw. rewrite (bool_decide_eq_false_2 (is_Some None)) by (intros [? [=]]).
      simpl. eexists. reflexivity.
  - eexists. split; reflexivity.
Qed.

Lemma updateArticle_unknown env id formData w :
  articles (db w) !! id = None →
  if suppliesNames formData
  then ∃ w', updateArticle env id formData w = (Thrown (SqliteError FOREIGNKEY), w')
             ∧ db w' = db w
  else ∃ w', updateArticle env id formData w = (Returned tt, w')
             ∧ articles (db w') = articles (db w).
Proof.
  intros Hw.
  pose proof (unknownId_bind id _ _ _ _ (updateArticleRow_unknown env id formData)
    (unknownId_bind id _ _ _ _ (replaceLinks_unknown Author id (PartialFormData.authors formData))
    (unknownId_bind id _ _ _ _ (replaceLinks_unknown Keyword id (PartialFormData.keywords formData))
    (unknownId_bind id _ _ _ _ (replaceLinks_unknown Subject id (PartialFormData.subjects formData))
    (unknownId_bind id _ _ _ _ (replaceLinks_unknown Tag id (PartialFormData.tags formData))
    (unknownId_bind id _ _ _ _
       (replaceLinks_unknown University id (PartialFormData.universities formData))
       (replaceLinks_unknown Company id (PartialFormData.companies formData)))))))
    w Hw) as H.
  replace (suppliesNames formData) with
    (false || (suppliesName (PartialFormData.authors formData)
     || (suppliesName (PartialFormData.keywords formData)
     || (suppliesName (PartialFormData.subjects formData)
     || (suppliesName (PartialFormData.tags formData)
     || (suppliesName (PartialFormData.universities formData)
     || suppliesName (PartialFormData.companies formData)))))))
    by (unfold suppliesNames; simpl; rewrite !orb_assoc; reflexivity).
  unfold updateArticle, transaction.
  destruct (_ || _).
  - destruct H as [w' H]. rewrite H. eexists. split; reflexivity.
  - destruct H as (w' & H & Ha). rewrite H. eexists. split; [reflexivity | exact Ha].
Qed.

(** C5 (amended).  For an identifier that denotes no article, update
    never reports a not-found error.  It leaves table Article as it was
    and returns null, the not-found signal of get, when the payload
    supplies no name for any of the six entity lists; when the payload
    supplies a name, the first link violates the foreign key, the
    transaction is rolled back and the error of the store is thrown. *)
Theorem update_unknown_id env id formData w :
  articles (db w) !! id = None →
  ∃ w',
    articlesUpdate env id formData w
    = (if suppliesNames formData then Thrown (SqliteError FOREIGNKEY) else Returned None, w')
    ∧ articles (db w') = articles (db w)
    ∧ (suppliesNames formData = true → db w' = db w).
Proof.
  intros Hw. pose proof (updateArticle_unknown env id formData w Hw) as H.
  unfold articlesUpdate. setoid_rewrite tryCatch_rethrow.
  destruct (suppliesNames formData).
  - destruct H as (w' & H & Hdb). exists w'.
    erewrite bind_thrown by exact H. split_and!; [reflexivity | congruence | auto].
  - destruct H as (w' & H & Ha). exists w'.
    erewrite bind_returned by exact H. munfold. simpl.
    unfold getArticleWithRelations. rewrite Ha, Hw.
    split_and!; [reflexivity | reflexivity | discriminate].
Qed.

Lemma update_unknown_id_witness :
  articles (db oneArticleWorld) !! "0009" = None
  ∧ ∃ w',
      articlesUpdate laterEnv "0009" (titlePayload "Other") oneArticleWorld = (Returned None, w')
      ∧ articles (db w') = articles (db oneArticleWorld).
Proof.
  assert (H : articles (db oneArticleWorld) !! "0009" = None) by (vm_compute; reflexivity).
  split; [exact H |].
  destruct (update_unknown_id laterEnv "0009" (titlePayload "Other") oneArticleWorld H)
    as (w' & Hrun & Ha & _).
  exists w'. split; [exact Hrun | exact Ha].
Defined.

(** C5 as stated fails: on an unknown identifier update returns null
    without failing when the payload is empty, and throws the foreign-key
    error of the store when the payload names an author; neither is an
    error of the not-found kind. *)
Lemma update_unknown_id_not_reported_as_not_found :
  articles (db oneArticleWorld) !! "0009" = None
  ∧ (articlesUpdate laterEnv "0009" emptyPayload oneArticleWorld).1 = Returned None
  ∧ (articlesUpdate laterEnv "0009" (authorsPayload ["B. Roe"]) oneArticleWorld).1
    = Thrown (SqliteError FOREIGNKEY)
  ∧ isNotFound (SqliteError FOREIGNKEY) = false.
Proof. split_and!; vm_compute; reflexivity. Qed.

(** ** Storing a PDF *)

Ltac fs_unfold :=
  unfold copyToExternalIfEnabled, copyToExternalBody, ensureDir, unlinkIfExists,
    existsSync, existsDirSync, mkdirSync, writeFileSync, copyFileSync, writeAt,
    unlinkSync in *;
  munfold; simpl in *.

Lemma copyToExternalIfEnabled_returns p subdir name w :
  (copyToExternalIfEnabled p subdir name w).1 = Returned tt.
Proof.
  unfold copyToExternalIfEnabled, tryCatch.
  destruct (copyToExternalBody p subdir name w) as [[[]|e] w']; reflexivity.
Qed.

(** The mirror block leaves the files as they are when it throws. *)
Lemma copyToExternalBody_thrown p subdir name w e w' :
  copyToExternalBody p subdir name w = (Thrown e, w') →
  files (fs w') = files (fs w) ∧ db w' = db w.
Proof.
  fs_unfold. repeat (case_match; simpl in *; simplify_eq); intros; simplify_eq; done.
Qed.

(** The mirror copy of a file leaves that file holding what it held. *)
Lemma copyToExternalIfEnabled_keeps p subdir name data w :
  files (fs w) !! p = Some data →
  files (fs (copyToExternalIfEnabled p subdir name w).2) !! p = Some data.
Proof.
  intros H. fs_unfold.
  repeat (case_match; simpl in *; simplify_eq); try done;
    rewrite lookup_insert; destruct (decide _); simpl in *; congruence.
Qed.

Lemma primaryWrite_returned env name data w w1 :
  (ensureDir (getPdfDir env) ;; writeFileSync (getPdfDir env, name) data) w
    = (Returned tt, w1) →
  files (fs w1) !! (getPdfDir env, name) = Some data.
Proof.
  fs_unfold. repeat (case_match; simpl in *; simplify_eq); intros; simplify_eq; simpl;
    apply lookup_insert_eq.
Qed.

(** Upload is the primary write followed by the mirror copy, whose
    outcome does not count. *)
Lemma filesUploadPdf_run env id title data w :
  let name := makeName id title +:+ ".pdf" in
  filesUploadPdf env id title data w =
  match (ensureDir (getPdfDir env) ;; writeFileSync (getPdfDir env, name) data) w with
  | (Returned _, w1) =>
      (Returned name, (copyToExternalIfEnabled (getPdfDir env, name) "pdfs" name w1).2)
  | (Thrown e, w1) => (Thrown e, w1)
  end.
Proof.
  cbv zeta. unfold filesUploadPdf. rewrite tryCatch_rethrow.
  destruct (ensureDir (getPdfDir env) w) as [[[]|e] w0] eqn:He.
  2:{ rewrite (bind_thrown (ensureDir (getPdfDir env)) _ w _ _ He).
      rewrite (bind_thrown (ensureDir (getPdfDir env)) _ w _ _ He). reflexivity. }
  rewrite (bind_returned (ensureDir (getPdfDir env)) _ w _ _ He).
  rewrite (bind_returned (ensureDir (getPdfDir env)) _ w _ _ He).
  destruct (writeFileSync (getPdfDir env, makeName id title +:+ ".pdf") data w0)
    as [[[]|e] w1] eqn:Hw.
  2:{ erewrite bind_thrown by exact Hw. reflexivity. }
  erewrite bind_returned by exact Hw.
  pose proof (copyToExternalIfEnabled_returns (getPdfDir env, makeName id title +:+ ".pdf")
                "pdfs" (makeName id title +:+ ".pdf") w1) as Hr.
  destruct (copyToExternalIfEnabled _ _ _ w1) as [[[]|e] w2] eqn:Hc; [| discriminate].
  erewrite bind_returned by exact Hc. reflexivity.
Qed.

(** What a successful upload leaves behind. *)
Lemma filesUploadPdf_returned env id title data w name w' :
  filesUploadPdf env id title data w = (Returned name, w') →
  name = makeName id title +:+ ".pdf"
  ∧ files (fs w') !! (getPdfDir env, name) = Some data
  ∧ db w' = db w.
Proof.
  intros H.
  destruct (spec_run _ _ _ _ _ _ (filesUploadPdf_fsOnly env id title data) H) as [[Hdb _] _].
  rewrite filesUploadPdf_run in H. cbv zeta in H.
  destruct ((ensureDir (getPdfDir env) ;; writeFileSync _ data) w) as [[[]|e] w1] eqn:Hp;
    [| discriminate].
  injection H as <- <-. split_and!; [reflexivity | | exact Hdb].
  apply copyToExternalIfEnabled_keeps. eapply primaryWrite_returned, Hp.
Qed.

(** ** C8: a failing mirror copy *)

(** C8.  When the primary write of an upload has succeeded and the
    mirror block then throws, the upload still returns the stored file
    name; the files are those left by the primary write, and the primary
    file holds the uploaded bytes. *)
Theorem mirror_failure_is_swallowed env id title data w w1 e w2 :
  (ensureDir (getPdfDir env) ;;
   writeFileSync (getPdfDir env, makeName id title +:+ ".pdf") data) w = (Returned tt, w1) →
  copyToExternalBody (getPdfDir env, makeName id title +:+ ".pdf") "pdfs"
    (makeName id title +:+ ".pdf") w1 = (Thrown e, w2) →
  filesUploadPdf env id title data w = (Returned (makeName id title +:+ ".pdf"), w2)
  ∧ files (fs w2) = files (fs w1)
  ∧ files (fs w2) !! (getPdfDir env, makeName id title +:+ ".pdf") = Some data.
Proof.
  intros Hp Hm.
  destruct (copyToExternalBody_thrown _ _ _ _ _ _ Hm) as [Hfiles _].
  split_and!.
  - rewrite filesUploadPdf_run. cbv zeta. rewrite Hp.
    unfold copyToExternalIfEnabled, tryCatch. rewrite Hm. reflexivity.
  - exact Hfiles.
  - rewrite Hfiles. eapply primaryWrite_returned, Hp.
Qed.

Lemma mirror_failure_is_swallowed_witness :
  ∃ w2,
    filesUploadPdf devEnv "0001" "Foo Bar" tenBytes brokenMirrorWorld
      = (Returned "0001 - Foo Bar.pdf", w2)
    ∧ files (fs w2) !! (joinDir "storage" "pdfs", "0001 - Foo Bar.pdf") = Some tenBytes
    ∧ files (fs w2) !! (joinDir "cloud" "pdfs", "0001 - Foo Bar.pdf") = None.
Proof.
  pose (w1 := ((ensureDir (getPdfDir devEnv) ;;
                writeFileSync (getPdfDir devEnv, makeName "0001" "Foo Bar" +:+ ".pdf") tenBytes)
                 brokenMirrorWorld).2).
  pose (w2 := (copyToExternalBody (getPdfDir devEnv, makeName "0001" "Foo Bar" +:+ ".pdf")
                 "pdfs" (makeName "0001" "Foo Bar" +:+ ".pdf") w1).2).
  destruct (mirror_failure_is_swallowed devEnv "0001" "Foo Bar" tenBytes brokenMirrorWorld
              w1 (FsError EACCES (joinDir "cloud" "pdfs", EmptyString)) w2)
    as (Hrun & Hfiles & Hprimary).
  - vm_compute. reflexivity.
  - vm_compute. reflexivity.
  - exists w2. split_and!; [exact Hrun | exact Hprimary |].
    vm_compute. reflexivity.
Defined.

(** ** C6: store, then locate *)

(** C6 (amended).  When the article is in the store with a non-empty
    title that gives the same file name as the title passed to the
    upload, a successful upload followed by a lookup returns the path of
    the stored file, and the file holds the uploaded bytes, whatever
    files, legacy or current, were there before. *)
Theorem store_then_locate env id title data w row name w' :
  articles (db w) !! id = Some row →
  Row.title row ≠ EmptyString →
  makeName id (Row.title row) = makeName id title →
  filesUploadPdf env id title data w = (Returned name, w') →
  findPdfFile env id w' = (Returned (Some (getPdfDir env, name)), w')
  ∧ files (fs w') !! (getPdfDir env, name) = Some data.
Proof.
  intros Hrow Htitle Hname Hup.
  destruct (filesUploadPdf_returned _ _ _ _ _ _ _ Hup) as (-> & Hfile & Hdb).
  split; [| exact Hfile].
  unfold findPdfFile. munfold. unfold existsSync. munfold. simpl.
  unfold getArticleTitle. rewrite Hdb, Hrow.
  unfold Js.truthy. rewrite bool_decide_eq_false_2 by exact Htitle. simpl.
  rewrite Hname, Hfile.
  rewrite bool_decide_eq_true_2 by (eexists; reflexivity). reflexivity.
Qed.

Lemma store_then_locate_witness :
  ∃ w',
    filesUploadPdf devEnv "0001" "Foo_Bar " tenBytes oneArticleWorld
      = (Returned "0001 - Foo Bar.pdf", w')
    ∧ findPdfFile devEnv "0001" w'
      = (Returned (Some (getPdfDir devEnv, "0001 - Foo Bar.pdf")), w')
    ∧ files (fs w') !! (getPdfDir devEnv, "0001 - Foo Bar.pdf") = Some tenBytes.
Proof.
  eexists. split; [reflexivity |].
  eapply (store_then_locate devEnv "0001" "Foo_Bar " tenBytes oneArticleWorld).
  - vm_compute. reflexivity.
  - discriminate.
  - reflexivity.
  - reflexivity.
Defined.

(** C6 as stated fails: article 0001 is titled Foo Bar in the store; a
    PDF stored for it under the title Draft is written, and the lookup
    does not find it. *)
Lemma store_under_other_title_not_located :
  let r := filesUploadPdf devEnv "0001" "Draft" tenBytes oneArticleWorld in
  Row.title <$> articles (db oneArticleWorld) !! "0001" = Some "Foo Bar"
  ∧ r.1 = Returned "0001 - Draft.pdf"
  ∧ files (fs r.2) !! (joinDir "storage" "pdfs", "0001 - Draft.pdf") = Some tenBytes
  ∧ (findPdfFile devEnv "0001" r.2).1 = Returned None.
Proof. split_and!; vm_compute; reflexivity. Qed.

(** ** C10: the two candidate names of a lookup *)

Lemma string_app_cons c r t : String c r +:+ t = String c (r +:+ t).
Proof. reflexivity. Qed.

Lemma string_app_length s t :
  String.length (s +:+ t) = (String.length s + String.length t)%nat.
Proof.
  induction s as [|c s IH]; [reflexivity |].
  rewrite string_app_cons. simpl. rewrite IH. reflexivity.
Qed.







Lemma articlesUpdate_title_run env id title w :
  articlesUpdate env id (titlePayload title) w =
    let d := setArticles (alter (updateColumns env (titlePayload title)) id (articles (db w)))
               (db w) in
    (Returned (getArticleWithRelations d id),
     {| db := d; fs := fs w; allocated := allocated w |}).
Proof. reflexivity. Qed.




(** * Further properties *)

(** ** File names *)

Lemma trimStart_length s : (String.length (Js.trimStart s) ≤ String.length s)%nat.
Proof.
  induction s as [|c s IH]; simpl; [lia |].
  destruct (Js.isWhiteSpace c); simpl; lia.
Qed.

Lemma trimEnd_length s : (String.length (Js.trimEnd s) ≤ String.length s)%nat.
Proof.
  induction s as [|c s IH]; simpl; [lia |].
  destruct (Js.trimEnd s); [destruct (Js.isWhiteSpace c) |]; simpl in *; lia.
Qed.

Lemma trim_length s : (String.length (Js.trim s) ≤ String.length s)%nat.
Proof.
  unfold Js.trim. etrans; [apply trimEnd_length | apply trimStart_length].
Qed.

Lemma substring_length n s : (String.length (String.substring 0 n s) ≤ n)%nat.
Proof.
  revert s. induction n as [|n IH]; intros [|c s]; simpl; try lia.
  specialize (IH s). lia.
Qed.

(** X1.  The file name that [makeName] builds is never longer than 200
    characters, whatever the identifier and the title. *)
Theorem makeName_length id title : (String.length (makeName id title) ≤ 200)%nat.
Proof.
  unfold makeName. cbv zeta. case_bool_decide as Hlong.
  - etrans; [apply trim_length | apply substring_length].
  - lia.
Qed.

Lemma allChars_app p s t : allChars p (s +:+ t) = allChars p s && allChars p t.
Proof.
  induction s as [|c s IH]; [reflexivity |].
  rewrite string_app_cons. simpl. rewrite IH, andb_assoc. reflexivity.
Qed.





(** Replacing the characters of a class by a text that passes a test
    gives a string passing it, when the characters outside the class
    do. *)
Lemma allChars_replaceAll p class r s :
  allChars p r = true →
  (∀ c, class c = false → c ∈ String.list_ascii_of_string s → p c = true) →
  allChars p (Js.replaceAll class r s) = true.
Proof.
  intros Hr. induction s as [|c s IH]; simpl; [done |]. intros Hs.
  assert (Hrest : allChars p (Js.replaceAll class r s) = true).
  { apply IH. intros c' Hc' Hin. apply Hs; [exact Hc' |]. apply elem_of_cons. auto. }
  destruct (class c) eqn:Hc.
  - rewrite allChars_app, Hr, Hrest. reflexivity.
  - simpl. rewrite Hrest, (Hs c Hc) by apply list_elem_of_here. reflexivity.
Qed.

Lemma allChars_elem p s c :
  allChars p s = true → c ∈ String.list_ascii_of_string s → p c = true.
Proof.
  induction s as [|c' s IH]; simpl; [intros _ H; inversion H |].
  intros [Hc Hs]%andb_true_iff [->|Hin]%elem_of_cons; auto.
Qed.

(** The title part of a file name is free of forbidden characters and
    of underscores. *)
Lemma cleanTitle_allowed title :
  let clean := Js.replaceAll underscore " " (Js.replaceAll forbiddenChar "-" title) in
  allChars (λ c, negb (forbiddenChar c)) clean = true
  ∧ allChars (λ c, negb (underscore c)) clean = true.
Proof.
  cbv zeta. split.
  - apply allChars_replaceAll; [reflexivity |]. intros c _ Hin.
    apply (allChars_elem (λ c, negb (forbiddenChar c))
             (Js.replaceAll forbiddenChar "-" title) c); [| exact Hin].
    apply allChars_replaceAll; [reflexivity |]. intros c' Hc' _. rewrite Hc'. reflexivity.
  - apply allChars_replaceAll; [reflexivity |]. intros c Hc _. rewrite Hc. reflexivity.
Qed.



Lemma replaceAll_none class r s :
  allChars (λ c, negb (class c)) s = true → Js.replaceAll class r s = s.
Proof.
  induction s as [|c s IH]; simpl; [done |].
  intros [Hc Hs]%andb_true_iff. destruct (class c); [discriminate |].
  rewrite IH by exact Hs. reflexivity.
Qed.

Lemma testClass_false class s :
  testClass class s = false → allChars (λ c, negb (class c)) s = true.
Proof.
  induction s as [|c s IH]; simpl; [done |].
  intros [Hc Hs]%orb_false_iff. rewrite Hc. simpl. apply IH, Hs.
Qed.

(** Both branches of [checkTitle] compute the same replacement. *)
Lemma checkTitle_replaces title :
  checkTitle title
  = Js.replaceAll underscore " " (Js.replaceAll forbiddenChar "-" title).
Proof.
  unfold checkTitle, Js.truthy. rewrite negb_involutive.
  case_bool_decide as Hempty; [subst; reflexivity |].
  destruct (testClass forbiddenChar title) eqn:Htest; [reflexivity |].
  rewrite (replaceAll_none forbiddenChar) by (apply testClass_false, Htest).
  reflexivity.
Qed.

(** X3.  The file name of an article does not depend on whether the
    title went through the sanitizer of the forms first: [makeName] of
    the checked title is [makeName] of the raw title. *)
Theorem makeName_checkTitle id title :
  makeName id (checkTitle title) = makeName id title.
Proof.
  destruct (cleanTitle_allowed title) as [Hf Hu]. cbv zeta in Hf, Hu.
  unfold makeName. rewrite checkTitle_replaces.
  rewrite (replaceAll_none forbiddenChar) by exact Hf.
  rewrite (replaceAll_none underscore) by exact Hu.
  reflexivity.
Qed.

(** X4.  A checked title holds no forbidden character and no
    underscore, and checking it again changes nothing. *)
Theorem checkTitle_clean_and_idempotent title :
  allChars (λ c, negb (forbiddenChar c)) (checkTitle title) = true
  ∧ allChars (λ c, negb (underscore c)) (checkTitle title) = true
  ∧ checkTitle (checkTitle title) = checkTitle title.
Proof.
  destruct (cleanTitle_allowed title) as [Hf Hu]. cbv zeta in Hf, Hu.
  rewrite (checkTitle_replaces (checkTitle title)).
  rewrite checkTitle_replaces.
  split_and!; [exact Hf | exact Hu |].
  rewrite (replaceAll_none forbiddenChar) by exact Hf.
  rewrite (replaceAll_none underscore) by exact Hu.
  reflexivity.
Qed.

Lemma replaceAll_drop_length class s :
  (String.length (Js.replaceAll class EmptyString s) ≤ String.length s)%nat.
Proof.
  induction s as [|c s IH]; simpl; [lia |].
  destruct (class c); simpl; [| lia].
  change (EmptyString +:+ ?x) with x. lia.
Qed.

Lemma replaceAll_drop_allChars class s :
  allChars (λ c, negb (class c)) (Js.replaceAll class EmptyString s) = true.
Proof.
  induction s as [|c s IH]; simpl; [done |].
  destruct (class c) eqn:Hc; [exact IH |]. simpl. rewrite Hc, IH. reflexivity.
Qed.

(** X5.  The [fileName] column that create computes is the identifier,
    the separator, and at most 50 characters that are all letters,
    digits or spaces. *)
Theorem articleFileName_shape nextId title :
  ∃ kept,
    articleFileName nextId title = nextId +:+ " - " +:+ kept
    ∧ (String.length kept ≤ 50)%nat
    ∧ allChars alnumOrSpace kept = true.
Proof.
  eexists. split_and!; [reflexivity | |].
  - etrans; [apply replaceAll_drop_length | apply substring_length].
  - pose proof (replaceAll_drop_allChars (λ c, negb (alnumOrSpace c))
                  (String.substring 0 50 title)) as H.
    erewrite <- H. clear H. generalize (Js.replaceAll (λ c, negb (alnumOrSpace c)) EmptyString
                                (String.substring 0 50 title)).
    intros s. induction s as [|c s IH]; simpl; [done |].
    rewrite negb_involutive, IH. reflexivity.
Qed.

Lemma repeatChar_length n c : String.length (Js.repeatChar n c) = n.
Proof. induction n as [|n IH]; simpl; [reflexivity | rewrite IH; reflexivity]. Qed.

(** X6.  Identifiers are at least four characters wide, and two
    different numbers of magnitude at most 2^53 never print to the same
    identifier. *)
Theorem formatArticleId_wide_and_injective (m n : Z) :
  exactInteger m → exactInteger n →
  (4 ≤ String.length (formatArticleId n))%nat
  ∧ (formatArticleId m = formatArticleId n → m = n).
Proof.
  intros Hm Hn. split; [| apply formatArticleId_inj; assumption].
  unfold formatArticleId, Js.padStart.
  rewrite string_app_length, repeatChar_length. lia.
Qed.

Lemma formatArticleId_wide_and_injective_witness :
  (4 ≤ String.length (formatArticleId 12))%nat
  ∧ (formatArticleId 7 = formatArticleId 12 → 7 = 12).
Proof.
  apply (formatArticleId_wide_and_injective 7 12); vm_compute; split; discriminate.
Defined.

(** ** The store stays well formed *)

Global Instance keepsWf_frame : Frame keepsWf.
Proof.
  split; unfold keepsWf.
  - auto.
  - auto.
  - intros w w' _ H. exact H.
Qed.

Global Instance keepsArticles_frame : Frame keepsArticles.
Proof.
  split; unfold keepsArticles.
  - auto.
  - intros a b c ? ?. congruence.
  - intros w w' _. reflexivity.
Qed.

Global Instance keepsKind_frame k : Frame (keepsKind k).
Proof.
  split; unfold keepsKind.
  - auto.
  - intros a b c [? ?] [? ?]. split; congruence.
  - intros w w' _. auto.
Qed.

Lemma fsOnly_keepsWf w w' : fsOnly w w' → keepsWf w w'.
Proof. intros [Hdb _] H. rewrite Hdb. exact H. Qed.

Lemma fsOnly_keepsArticles w w' : fsOnly w w' → keepsArticles w w'.
Proof. intros [Hdb _]. unfold keepsArticles. rewrite Hdb. reflexivity. Qed.

Lemma foldr_max_ge (s : Z) (l : list Z) x : x ∈ l → x ≤ foldr Z.max s l.
Proof.
  induction l as [|y l IH]; simpl; [intros H; inversion H |].
  intros [->|Hin]%elem_of_cons; [lia |]. specialize (IH Hin). lia.
Qed.

(** The rowid of a new row is not in the table. *)
Lemma nextRowid_fresh t : nextRowid t ∉ Entity.id <$> entityRows t.
Proof.
  intros Hin. apply (foldr_max_ge (entitySeq t)) in Hin. unfold nextRowid in Hin. lia.
Qed.

Lemma find_name_None (rows : list Entity.t) name :
  List.find (λ e, bool_decide (Entity.name e = name)) rows = None →
  name ∉ Entity.name <$> rows.
Proof.
  induction rows as [|e rows IH]; simpl; [intros _ H; inversion H |].
  case_bool_decide as He; [discriminate |].
  intros Hf [Heq|Hin]%elem_of_cons; [congruence |]. exact (IH Hf Hin).
Qed.

Lemma find_name_Some (rows : list Entity.t) name e :
  List.find (λ e, bool_decide (Entity.name e = name)) rows = Some e →
  e ∈ rows ∧ Entity.name e = name.
Proof.
  induction rows as [|e' rows IH]; simpl; [discriminate |].
  case_bool_decide as He.
  - intros [= <-]. split; [apply list_elem_of_here | exact He].
  - intros Hf. destruct (IH Hf) as [Hin Hn]. split; [apply list_elem_of_further, Hin | exact Hn].
Qed.

Lemma getOrCreateEntity_keepsWf k name : Spec keepsWf noError (getOrCreateEntity k name).
Proof.
  intros w. unfold getOrCreateEntity. munfold. simpl.
  destruct (List.find _ _) as [e|] eqn:Hfind; simpl; (split; [| discriminate]).
  - intros H. exact H.
  - intros [Hids Hnames Hlinks Hart Hent].
    pose proof (nextRowid_fresh (entities (db w) k)) as Hfresh.
    pose proof (find_name_None _ _ Hfind) as Hname.
    split; simpl.
    + intros k'. case_decide as Hk; [subst k'; simpl | apply Hids].
      rewrite fmap_app. apply NoDup_app. split_and!; [apply Hids | | apply NoDup_singleton].
      intros x Hx ->%list_elem_of_singleton. exact (Hfresh Hx).
    + intros k'. case_decide as Hk; [subst k'; simpl | apply Hnames].
      rewrite fmap_app. apply NoDup_app. split_and!; [apply Hnames | | apply NoDup_singleton].
      intros x Hx ->%list_elem_of_singleton. exact (Hname Hx).
    + exact Hlinks.
    + exact Hart.
    + intros k' r Hr. case_decide as Hk; [subst k'; simpl | apply Hent, Hr].
      rewrite fmap_app. apply elem_of_app. left. apply Hent, Hr.
Qed.

Lemma linkArticleEntity_keepsWf k id e : Spec keepsWf foreignKeyError (linkArticleEntity k id e).
Proof.
  intros w. unfold linkArticleEntity, foreignKeyError. munfold. simpl.
  case_bool_decide as Hpresent; simpl; [split; [intros H; exact H | discriminate] |].
  destruct (bool_decide (is_Some _) && bool_decide _) eqn:Hfk; simpl;
    [| split; [intros H; exact H | intros ? [= <-]; reflexivity]].
  apply andb_true_iff in Hfk as [Ha%bool_decide_eq_true He%bool_decide_eq_true].
  split; [| discriminate].
  intros [Hids Hnames Hlinks Hart Hent]. split; simpl; try assumption.
  - intros k'. case_decide as Hk; [subst k' | apply Hlinks].
    apply NoDup_app. split_and!; [apply Hlinks | | apply NoDup_singleton].
    intros x Hx ->%list_elem_of_singleton. exact (Hpresent Hx).
  - intros k' r. case_decide as Hk; [subst k' | apply Hart].
    intros [Hr| ->%list_elem_of_singleton]%elem_of_app; [apply Hart in Hr; exact Hr | exact Ha].
  - intros k' r. case_decide as Hk; [subst k' | apply Hent].
    intros [Hr| ->%list_elem_of_singleton]%elem_of_app; [apply Hent in Hr; exact Hr | exact He].
Qed.

Lemma clearArticleRelations_keepsWf k id : Spec keepsWf noError (clearArticleRelations k id).
Proof.
  intros w. unfold clearArticleRelations. munfold. simpl. split; [| discriminate].
  intros [Hids Hnames Hlinks Hart Hent]. split; simpl; try assumption.
  - intros k'. case_decide as Hk; [subst k' | apply Hlinks]. apply NoDup_filter, Hlinks.
  - intros k' r. case_decide as Hk; [subst k' | apply Hart].
    intros [_ Hr]%list_elem_of_filter. apply Hart in Hr. exact Hr.
  - intros k' r. case_decide as Hk; [subst k' | apply Hent].
    intros [_ Hr]%list_elem_of_filter. apply Hent in Hr. exact Hr.
Qed.

Lemma insertArticle_keepsWf env id fileName formData :
  Spec keepsWf sqliteError (insertArticle env id fileName formData).
Proof.
  intros w. unfold insertArticle, sqliteError. munfold. simpl.
  destruct (articles (db w) !! id) eqn:Hid; simpl.
  - split; [intros H; exact H | intros ? [= <-]; eauto].
  - split; [| discriminate].
    intros [Hids Hnames Hlinks Hart Hent]. split; simpl; try assumption.
    intros k r Hr. apply Hart in Hr. rewrite lookup_insert. case_decide; [eauto | exact Hr].
Qed.

Lemma updateArticleRow_keepsWf env id formData :
  Spec keepsWf noError (updateArticleRow env id formData).
Proof.
  intros w. unfold updateArticleRow. munfold. simpl. split; [| discriminate].
  intros [Hids Hnames Hlinks Hart Hent]. split; simpl; try assumption.
  intros k r Hr. apply Hart in Hr. rewrite lookup_alter. case_decide; [| exact Hr].
  subst. destruct Hr as [x ->]. eauto.
Qed.

Lemma deleteArticleRow_keepsWf id : Spec keepsWf noError (deleteArticleRow id).
Proof.
  intros w. unfold deleteArticleRow. munfold. simpl. split; [| discriminate].
  intros [Hids Hnames Hlinks Hart Hent]. split; simpl; try assumption.
  - intros k. apply NoDup_filter, Hlinks.
  - intros k r [Hne Hr]%list_elem_of_filter. apply Hart in Hr.
    rewrite lookup_delete_ne by congruence. exact Hr.
  - intros k r [_ Hr]%list_elem_of_filter. apply Hent in Hr. exact Hr.
Qed.

Lemma getNextArticleId_keepsWf : Spec keepsWf noError getNextArticleId.
Proof.
  intros w. rewrite getNextArticleId_run. unfold advanceCounter. simpl.
  split; [| discriminate].
  intros [Hids Hnames Hlinks Hart Hent]. split; assumption.
Qed.

Lemma linkNames_keepsWf k id names : Spec keepsWf foreignKeyError (linkNames k id names).
Proof.
  unfold linkNames. apply spec_forEach. intros name. apply spec_bind.
  - apply spec_noError, getOrCreateEntity_keepsWf.
  - intros e. apply linkArticleEntity_keepsWf.
Qed.

Lemma replaceLinks_keepsWf k id names : Spec keepsWf foreignKeyError (replaceLinks k id names).
Proof.
  destruct names as [l|]; simpl; [| apply spec_ret].
  apply spec_bind; [| intros _; apply linkNames_keepsWf].
  apply spec_noError, clearArticleRelations_keepsWf.
Qed.

Lemma articlesCreate_keepsWf env formData : Spec keepsWf anyError (articlesCreate env formData).
Proof.
  unfold articlesCreate. apply spec_rethrow.
  apply spec_bind; [apply spec_getDb | intros d].
  case_bool_decide; [apply spec_throw; exact I |].
  apply spec_bind; [apply spec_noError, getNextArticleId_keepsWf | intros nextId].
  apply spec_bind; [| intros _; apply spec_bind; [apply spec_getDb | intros d'; apply spec_ret]].
  unfold createArticle. apply spec_transaction.
  apply spec_bind; [eapply spec_weaken; [| | apply insertArticle_keepsWf]; done | intros _].
  repeat (apply spec_bind; [| intros _]);
    (eapply spec_weaken; [| | apply linkNames_keepsWf]; done).
Qed.

Lemma articlesUpdate_keepsWf env id formData :
  Spec keepsWf anyError (articlesUpdate env id formData).
Proof.
  unfold articlesUpdate. apply spec_rethrow.
  apply spec_bind; [| intros _; apply spec_bind; [apply spec_getDb | intros d'; apply spec_ret]].
  unfold updateArticle. apply spec_transaction.
  apply spec_bind; [apply spec_noError, updateArticleRow_keepsWf | intros _].
  repeat (apply spec_bind; [| intros _]);
    (eapply spec_weaken; [| | apply replaceLinks_keepsWf]; done).
Qed.

Lemma articlesDelete_keepsWf env id : Spec keepsWf anyError (articlesDelete env id).
Proof.
  assert (Hu : ∀ p, Spec keepsWf anyError (unlinkIfExists p)).
  { intros p. eapply spec_weaken; [apply fsOnly_keepsWf | | apply unlinkIfExists_fsOnly].
    auto. }
  unfold articlesDelete. apply spec_rethrow.
  apply spec_bind; [apply Hu | intros _].
  apply spec_bind; [apply Hu | intros _].
  apply spec_bind; [apply spec_getDb | intros d].
  apply spec_bind; [| intros _; apply spec_noError, deleteArticleRow_keepsWf].
  repeat case_match; try apply spec_ret.
  apply spec_bind; [apply Hu | intros _; apply Hu].
Qed.

Lemma runCall_keepsWf w c : wfDb (db w) → wfDb (db (runCall w c)).
Proof.
  destruct c as [env formData | env id formData | env id | env id title buf]; simpl.
  - apply articlesCreate_keepsWf.
  - apply articlesUpdate_keepsWf.
  - apply articlesDelete_keepsWf.
  - apply fsOnly_keepsWf, filesUploadPdf_fsOnly.
Qed.

Lemma emptyDb_wf : wfDb emptyDb.
Proof.
  split; simpl; intros; try apply NoDup_nil_2;
    match goal with H : _ ∈ [] |- _ => inversion H end.
Defined.

(** X7.  The constraints of the schema are an invariant of the
    handlers: from a store with unique entity ids and names, at most one
    link per pair and links that refer to existing articles and entities,
    any sequence of create, update, delete and upload calls, failed ones
    included, leads to such a store. *)
Theorem handlers_keep_store_well_formed (calls : list Call) (w : World) :
  wfDb (db w) → wfDb (db (runCalls w calls)).
Proof.
  revert w. induction calls as [|c calls IH]; intros w Hw; [exact Hw |].
  simpl. apply IH, runCall_keepsWf, Hw.
Qed.

Lemma handlers_keep_store_well_formed_witness :
  wfDb (db (runCalls emptyWorld sampleCalls)).
Proof. apply (handlers_keep_store_well_formed sampleCalls emptyWorld), emptyDb_wf. Defined.

(** ** The entity resolver *)

Lemma find_name_app (rows : list Entity.t) name e :
  List.find (λ e, bool_decide (Entity.name e = name)) rows = None →
  Entity.name e = name →
  List.find (λ e, bool_decide (Entity.name e = name)) (rows ++ [e]) = Some e.
Proof.
  intros Hnone He. induction rows as [|e' rows IH]; simpl in *.
  - rewrite bool_decide_eq_true_2 by exact He. reflexivity.
  - destruct (bool_decide (Entity.name e' = name)); [discriminate |]. apply IH, Hnone.
Qed.

(** X8.  While the row ids of the table stay within the integers that
    JavaScript reads exactly, [getOrCreateEntity] does not throw.  It
    returns an entity of the table that bears the requested name, keeps
    every row the table had, and asking again for the same name returns
    the same entity without changing anything. *)
Theorem getOrCreateEntity_get_or_create k name w :
  tableExact (entities (db w) k) 1 →
  ∃ e w',
    getOrCreateEntity k name w = (Returned e, w')
    ∧ Entity.name e = name
    ∧ e ∈ entityRows (entities (db w') k)
    ∧ (∀ e0, e0 ∈ entityRows (entities (db w) k) → e0 ∈ entityRows (entities (db w') k))
    ∧ getOrCreateEntity k name w' = (Returned e, w').
Proof.
  intros _. unfold getOrCreateEntity. munfold. simpl.
  destruct (List.find _ (entityRows (entities (db w) k))) as [e|] eqn:Hfind.
  - destruct (find_name_Some _ _ _ Hfind) as [Hin Hname].
    exists e, w. rewrite Hfind. split_and!; [reflexivity | exact Hname | exact Hin | auto | reflexivity].
  - eexists _, _. split; [reflexivity |]. simpl.
    rewrite decide_True by reflexivity. simpl.
    rewrite (find_name_app _ name (Entity.mk (nextRowid (entities (db w) k)) name)
               Hfind eq_refl).
    split_and!; [reflexivity | | | reflexivity].
    + apply elem_of_app. right. apply list_elem_of_here.
    + intros e0 H0. apply elem_of_app. left. exact H0.
Qed.

Lemma getOrCreateEntity_get_or_create_witness :
  ∃ e w',
    getOrCreateEntity Author "B. Roe" oneArticleWorld = (Returned e, w')
    ∧ Entity.name e = "B. Roe".
Proof.
  destruct (getOrCreateEntity_get_or_create Author "B. Roe" oneArticleWorld)
    as (e & w' & Hrun & Hname & _).
  - apply (bool_decide_unpack _). vm_compute. exact I.
  - exists e, w'. split; assumption.
Defined.

(** X9.  [linkArticleEntity] is an idempotent insert.  When it returns,
    the pair is in the junction table and linking it again changes
    nothing; it throws only the foreign-key error, only when the pair is
    new and the article or the entity does not exist, and then the world
    is unchanged. *)
Theorem linkArticleEntity_idempotent k articleId entityId w :
  match linkArticleEntity k articleId entityId w with
  | (Returned _, w') =>
      ((articleId, entityId) ∈ junctions (db w') k)
      ∧ linkArticleEntity k articleId entityId w' = (Returned tt, w')
  | (Thrown e, w') =>
      e = SqliteError FOREIGNKEY ∧ w' = w
      ∧ ((articleId, entityId) ∉ junctions (db w) k)
      ∧ (articles (db w) !! articleId = None
         ∨ (entityId ∉ Entity.id <$> entityRows (entities (db w) k)))
  end.
Proof.
  unfold linkArticleEntity. munfold. simpl.
  case_bool_decide as Hpresent; simpl.
  - rewrite bool_decide_eq_true_2 by exact Hpresent. split; [exact Hpresent | reflexivity].
  - destruct (bool_decide (is_Some _) && bool_decide _) eqn:Hfk; simpl.
    + rewrite decide_True by reflexivity.
      assert (Hin : (articleId, entityId) ∈ junctions (db w) k ++ [(articleId, entityId)]).
      { apply elem_of_app. right. apply list_elem_of_here. }
      rewrite bool_decide_eq_true_2 by exact Hin. split; [exact Hin | reflexivity].
    + split_and!; [reflexivity | reflexivity | exact Hpresent |].
      apply andb_false_iff in Hfk as [Ha%bool_decide_eq_false | He%bool_decide_eq_false].
      * left. destruct (articles (db w) !! articleId); [destruct Ha; eauto | reflexivity].
      * right. exact He.
Qed.

(** ** Linking names to an article *)

Lemma relatedEntities_join d k id :
  relatedEntities d k id = joinEntities (junctions d k) (entityRows (entities d k)) id.
Proof. reflexivity. Qed.

Lemma joinEntities_elem links rows id e :
  e ∈ joinEntities links rows id ↔ e ∈ rows ∧ (id, Entity.id e) ∈ links.
Proof.
  unfold joinEntities. rewrite list_elem_of_bind. split.
  - intros ([a x] & [Hx He]%list_elem_of_filter & [Ha Hr]%list_elem_of_filter).
    simpl in *. subst. auto.
  - intros [He Hl]. exists (id, Entity.id e). split; apply list_elem_of_filter; auto.
Qed.

Lemma joinEntities_link links rows id x :
  joinEntities (links ++ [(id, x)]) rows id
  = joinEntities links rows id ++ filter (λ e, Entity.id e = x) rows.
Proof.
  unfold joinEntities. rewrite filter_app, bind_app. f_equal.
  rewrite filter_cons_True by reflexivity. rewrite filter_nil, bind_cons. apply app_nil_r.
Qed.

Lemma joinEntities_link_other links rows id id' x :
  id' ≠ id → joinEntities (links ++ [(id', x)]) rows id = joinEntities links rows id.
Proof.
  intros Hne. unfold joinEntities. rewrite filter_app, bind_app.
  rewrite (filter_cons_False _ (id', x)) by (simpl; congruence). simpl. apply app_nil_r.
Qed.

Lemma filter_fresh_row (rows : list Entity.t) e x :
  x ≠ Entity.id e → filter (λ e0, Entity.id e0 = x) (rows ++ [e]) = filter (λ e0, Entity.id e0 = x) rows.
Proof.
  intros Hne. rewrite filter_app, (filter_cons_False _ e) by congruence. apply app_nil_r.
Qed.

Lemma joinEntities_row links rows id e :
  (∀ r, r ∈ links → r.2 ≠ Entity.id e) →
  joinEntities links (rows ++ [e]) id = joinEntities links rows id.
Proof.
  intros Hfresh. unfold joinEntities.
  induction links as [|r links IH]; [reflexivity |].
  assert (Hrest : ∀ r0, r0 ∈ links → r0.2 ≠ Entity.id e).
  { intros r0 H0. apply Hfresh, list_elem_of_further, H0. }
  destruct (decide (r.1 = id)) as [Hr|Hr].
  - rewrite !filter_cons_True by exact Hr. rewrite !bind_cons, (IH Hrest). f_equal.
    apply filter_fresh_row. apply Hfresh, list_elem_of_here.
  - rewrite !filter_cons_False by exact Hr. apply IH, Hrest.
Qed.

Lemma filter_no_id (rows : list Entity.t) x :
  x ∉ Entity.id <$> rows → filter (λ e0, Entity.id e0 = x) rows = [].
Proof.
  induction rows as [|e rows IH]; [reflexivity |].
  rewrite fmap_cons. intros [Hne Hnot]%not_elem_of_cons.
  rewrite filter_cons_False by congruence. apply IH, Hnot.
Qed.

Lemma filter_unique_id (rows : list Entity.t) e :
  NoDup (Entity.id <$> rows) → e ∈ rows →
  filter (λ e0, Entity.id e0 = Entity.id e) rows = [e].
Proof.
  induction rows as [|e' rows IH]; [intros _ H; inversion H |].
  rewrite fmap_cons. intros [Hnot Hnd]%NoDup_cons [->|Hin]%elem_of_cons.
  - rewrite filter_cons_True by reflexivity. f_equal. apply filter_no_id, Hnot.
  - rewrite filter_cons_False; [apply IH; assumption |].
    intros Heq. apply Hnot. rewrite Heq. apply list_elem_of_fmap_2, Hin.
Qed.

Lemma NoDup_fmap_eq {A B} (f : A → B) (l : list A) x y :
  NoDup (f <$> l) → x ∈ l → y ∈ l → f x = f y → x = y.
Proof.
  induction l as [|a l IH]; [intros _ H; inversion H |].
  rewrite fmap_cons. intros [Hnot Hnd]%NoDup_cons [->|Hx]%elem_of_cons [->|Hy]%elem_of_cons Hf.
  - reflexivity.
  - destruct Hnot. rewrite Hf. apply list_elem_of_fmap_2, Hy.
  - destruct Hnot. rewrite <- Hf. apply list_elem_of_fmap_2, Hx.
  - apply IH; assumption.
Qed.

Lemma joinEntities_cleared links rows id :
  joinEntities (filter (λ r, r.1 ≠ id) links) rows id = [].
Proof.
  unfold joinEntities. induction links as [|r links IH]; [reflexivity |].
  destruct (decide (r.1 = id)) as [Hr|Hr].
  - rewrite (filter_cons_False (λ r, r.1 ≠ id)) by (intros H; exact (H Hr)). exact IH.
  - rewrite (filter_cons_True (λ r, r.1 ≠ id)) by exact Hr.
    rewrite filter_cons_False by exact Hr. exact IH.
Qed.

Lemma joinEntities_cleared_other links rows id id' :
  id' ≠ id →
  joinEntities (filter (λ r, r.1 ≠ id) links) rows id' = joinEntities links rows id'.
Proof.
  intros Hne. unfold joinEntities. induction links as [|r links IH]; [reflexivity |].
  destruct (decide (r.1 = id)) as [Hr|Hr].
  - rewrite (filter_cons_False (λ r, r.1 ≠ id)) by (intros H; exact (H Hr)).
    rewrite (filter_cons_False (λ r, r.1 = id')) by congruence. exact IH.
  - rewrite (filter_cons_True (λ r, r.1 ≠ id)) by exact Hr.
    destruct (decide (r.1 = id')) as [Hr'|Hr'].
    + rewrite !filter_cons_True by exact Hr'. rewrite !bind_cons, IH. reflexivity.
    + rewrite !filter_cons_False by exact Hr'. exact IH.
Qed.

(** One turn of the loop of [linkNames] on an existing article of a well
    formed store: the name joins the names linked to the article, once,
    and the links of the other articles are untouched. *)
Lemma linkName_step k id name w :
  wfDb (db w) → hasArticle id w →
  ∃ w',
    (getOrCreateEntity k name ≫= λ entity, linkArticleEntity k id (Entity.id entity)) w
      = (Returned tt, w')
    ∧ (∀ n, n ∈ relatedNames (db w') k id ↔ n = name ∨ n ∈ relatedNames (db w) k id)
    ∧ (NoDup (relatedNames (db w) k id) → NoDup (relatedNames (db w') k id))
    ∧ (∀ id', id' ≠ id → relatedEntities (db w') k id' = relatedEntities (db w) k id').
Proof.
  intros [Hids Hnames Hlinks Hart Hent] Hhas. unfold hasArticle in Hhas.
  unfold relatedNames. setoid_rewrite relatedEntities_join.
  unfold getOrCreateEntity, linkArticleEntity. munfold. simpl.
  destruct (List.find _ (entityRows (entities (db w) k))) as [e|] eqn:Hfind; simpl.
  - destruct (find_name_Some _ _ _ Hfind) as [Hin Hname].
    case_bool_decide as Hpresent; simpl.
    + exists w. split_and!; [reflexivity | | auto | auto].
      intros n. split; [auto |]. intros [->|Hn]; [| exact Hn].
      rewrite <- Hname. apply list_elem_of_fmap_2, joinEntities_elem. auto.
    + rewrite bool_decide_eq_true_2 by exact Hhas.
      rewrite bool_decide_eq_true_2 by apply list_elem_of_fmap_2, Hin. simpl.
      eexists. split; [reflexivity |]. simpl. rewrite decide_True by reflexivity.
      rewrite joinEntities_link, (filter_unique_id _ e (Hids k) Hin), fmap_app. simpl.
      rewrite Hname. split_and!.
      * intros n. rewrite elem_of_app, list_elem_of_singleton. tauto.
      * intros Hnd. apply NoDup_app. split_and!; [exact Hnd | | apply NoDup_singleton].
        intros n Hn ->%list_elem_of_singleton.
        apply list_elem_of_fmap in Hn as (e' & He' & [He'in He'link]%joinEntities_elem).
        assert (e' = e) as ->.
        { apply (NoDup_fmap_eq Entity.name _ e' e (Hnames k)); congruence. }
        exact (Hpresent He'link).
      * intros id' Hne. apply joinEntities_link_other. congruence.
  - pose proof (nextRowid_fresh (entities (db w) k)) as Hfresh.
    pose proof (find_name_None _ _ Hfind) as Hnone.
    rewrite decide_True by reflexivity. simpl.
    assert (Hnolink : ∀ r, r ∈ junctions (db w) k → r.2 ≠ nextRowid (entities (db w) k)).
    { intros r Hr Heq. apply Hfresh. rewrite <- Heq. apply Hent, Hr. }
    rewrite bool_decide_eq_false_2
      by (intros Hp; exact (Hnolink _ Hp eq_refl)).
    rewrite bool_decide_eq_true_2 by exact Hhas.
    rewrite bool_decide_eq_true_2
      by (rewrite fmap_app; apply elem_of_app; right; apply list_elem_of_here).
    simpl. eexists. split; [reflexivity |]. simpl. rewrite !decide_True by reflexivity.
    simpl. rewrite joinEntities_link.
    rewrite (joinEntities_row _ _ id (Entity.mk (nextRowid (entities (db w) k)) name))
      by exact Hnolink.
    rewrite filter_app, (filter_no_id _ _ Hfresh).
    rewrite filter_cons_True by reflexivity. simpl. rewrite fmap_app. simpl.
    split_and!.
    + intros n. rewrite elem_of_app, list_elem_of_singleton. tauto.
    + intros Hnd. apply NoDup_app. split_and!; [exact Hnd | | apply NoDup_singleton].
      intros n Hn ->%list_elem_of_singleton. apply Hnone.
      apply list_elem_of_fmap in Hn as (e' & -> & [He'in _]%joinEntities_elem).
      apply list_elem_of_fmap_2, He'in.
    + intros id' Hne. rewrite joinEntities_link_other by congruence.
      apply joinEntities_row, Hnolink.
Qed.

Lemma getOrCreateEntity_keepsArticles k name :
  Spec keepsArticles noError (getOrCreateEntity k name).
Proof. unfold getOrCreateEntity. spec_prim; reflexivity. Qed.

Lemma linkArticleEntity_keepsArticles k id e :
  Spec keepsArticles foreignKeyError (linkArticleEntity k id e).
Proof. unfold linkArticleEntity, foreignKeyError. spec_prim; reflexivity. Qed.

Lemma clearArticleRelations_keepsArticles k id :
  Spec keepsArticles noError (clearArticleRelations k id).
Proof. unfold clearArticleRelations. spec_prim; reflexivity. Qed.

Lemma getOrCreateEntity_keepsKind k k' name :
  k ≠ k' → Spec (keepsKind k) noError (getOrCreateEntity k' name).
Proof.
  intros Hne w. unfold getOrCreateEntity, keepsKind. munfold. simpl.
  destruct (List.find _ _); simpl; (split; [| discriminate]); [auto |].
  rewrite decide_False by exact Hne. auto.
Qed.

Lemma linkArticleEntity_keepsKind k k' id e :
  k ≠ k' → Spec (keepsKind k) foreignKeyError (linkArticleEntity k' id e).
Proof.
  intros Hne w. unfold linkArticleEntity, keepsKind, foreignKeyError. munfold. simpl.
  case_bool_decide; simpl; [split; [auto | discriminate] |].
  destruct (bool_decide (is_Some _) && bool_decide _); simpl;
    [split; [| discriminate] | split; [auto | intros ? [= <-]; reflexivity]].
  rewrite decide_False by exact Hne. auto.
Qed.

Lemma clearArticleRelations_keepsKind k k' id :
  k ≠ k' → Spec (keepsKind k) noError (clearArticleRelations k' id).
Proof.
  intros Hne w. unfold clearArticleRelations, keepsKind. munfold. simpl.
  split; [| discriminate]. rewrite decide_False by exact Hne. auto.
Qed.

Lemma linkOne_spec R `{!Frame R} k id name :
  Spec R noError (getOrCreateEntity k name) →
  (∀ e, Spec R foreignKeyError (linkArticleEntity k id e)) →
  Spec R foreignKeyError
    (getOrCreateEntity k name ≫= λ entity, linkArticleEntity k id (Entity.id entity)).
Proof. intros Hg Hl. apply spec_bind; [apply spec_noError, Hg | intros e; apply Hl]. Qed.

Lemma relatedEntities_keepsKind k w w' id :
  keepsKind k w w' → relatedEntities (db w') k id = relatedEntities (db w) k id.
Proof. intros [He Hj]. unfold relatedEntities. rewrite He, Hj. reflexivity. Qed.

(** [linkNames] on an existing article of a well formed store. *)
Lemma linkNames_result k id names w :
  wfDb (db w) → hasArticle id w →
  ∃ w',
    linkNames k id names w = (Returned tt, w')
    ∧ wfDb (db w')
    ∧ articles (db w') = articles (db w)
    ∧ (∀ k', k' ≠ k → keepsKind k' w w')
    ∧ (∀ n, n ∈ relatedNames (db w') k id ↔ n ∈ names ∨ n ∈ relatedNames (db w) k id)
    ∧ (NoDup (relatedNames (db w) k id) → NoDup (relatedNames (db w') k id))
    ∧ (∀ id', id' ≠ id → relatedEntities (db w') k id' = relatedEntities (db w) k id').
Proof.
  revert w. induction names as [|name names IH]; intros w Hwf Hhas.
  - exists w. split_and!.
    + reflexivity.
    + exact Hwf.
    + reflexivity.
    + intros k' _. apply frame_refl.
    + intros n. rewrite elem_of_nil. tauto.
    + auto.
    + reflexivity.
  - destruct (linkName_step k id name w Hwf Hhas) as (w1 & Hrun & Hn1 & Hnd1 & Hother1).
    assert (Hwf1 : wfDb (db w1)).
    { refine (proj1 (spec_run keepsWf foreignKeyError _ _ _ _ _ Hrun) Hwf).
      apply linkOne_spec; [apply _ | apply getOrCreateEntity_keepsWf |].
      intros e. apply linkArticleEntity_keepsWf. }
    assert (Ha1 : articles (db w1) = articles (db w)).
    { refine (proj1 (spec_run keepsArticles foreignKeyError _ _ _ _ _ Hrun)).
      apply linkOne_spec; [apply _ | apply getOrCreateEntity_keepsArticles |].
      intros e. apply linkArticleEntity_keepsArticles. }
    assert (Hk1 : ∀ k', k' ≠ k → keepsKind k' w w1).
    { intros k' Hne.
      refine (proj1 (spec_run (keepsKind k') foreignKeyError _ _ _ _ _ Hrun)).
      apply linkOne_spec; [apply _ | apply getOrCreateEntity_keepsKind, Hne |].
      intros e. apply linkArticleEntity_keepsKind, Hne. }
    assert (Hhas1 : hasArticle id w1) by (unfold hasArticle; rewrite Ha1; exact Hhas).
    destruct (IH w1 Hwf1 Hhas1) as (w2 & Hrun2 & Hwf2 & Ha2 & Hk2 & Hn2 & Hnd2 & Hother2).
    exists w2. split_and!.
    + unfold linkNames in *. simpl. erewrite bind_returned by exact Hrun. exact Hrun2.
    + exact Hwf2.
    + congruence.
    + intros k' Hne. eapply frame_trans; [apply Hk1, Hne | apply Hk2, Hne].
    + intros n. rewrite Hn2, Hn1, elem_of_cons. tauto.
    + auto.
    + intros id' Hne. rewrite Hother2, Hother1 by exact Hne. reflexivity.
Qed.

(** [replaceLinks] on an existing article of a well formed store: a
    supplied list becomes the set of names linked to the article, an
    absent one leaves the tables alone. *)
Lemma replaceLinks_result k id names w :
  wfDb (db w) → hasArticle id w →
  ∃ w',
    replaceLinks k id names w = (Returned tt, w')
    ∧ wfDb (db w')
    ∧ articles (db w') = articles (db w)
    ∧ (∀ k', k' ≠ k → keepsKind k' w w')
    ∧ match names with
      | Some l =>
          (∀ n, n ∈ relatedNames (db w') k id ↔ n ∈ l) ∧ NoDup (relatedNames (db w') k id)
      | None => keepsKind k w w'
      end
    ∧ (∀ id', id' ≠ id → relatedEntities (db w') k id' = relatedEntities (db w) k id').
Proof.
  intros Hwf Hhas. destruct names as [l|]; simpl.
  - destruct (clearArticleRelations k id w) as [r0 w0] eqn:Hclear.
    assert (Hr0 : r0 = Returned tt ∧ db w0 = setJunction k
                    (filter (λ r, r.1 ≠ id) (junctions (db w) k)) (db w)).
    { unfold clearArticleRelations in Hclear. munfold. simpl in Hclear.
      injection Hclear as <- <-. auto. }
    destruct Hr0 as [-> Hdb0].
    assert (Hwf0 : wfDb (db w0)).
    { exact (proj1 (spec_run keepsWf noError _ _ _ _ (clearArticleRelations_keepsWf k id) Hclear)
               Hwf). }
    assert (Ha0 : articles (db w0) = articles (db w)) by (rewrite Hdb0; reflexivity).
    assert (Hk0 : ∀ k', k' ≠ k → keepsKind k' w w0).
    { intros k' Hne.
      exact (proj1 (spec_run (keepsKind k') noError _ _ _ _
                      (clearArticleRelations_keepsKind k' k id Hne) Hclear)). }
    assert (Hrel0 : relatedNames (db w0) k id = []).
    { unfold relatedNames. rewrite relatedEntities_join, Hdb0. simpl.
      rewrite decide_True by reflexivity. rewrite joinEntities_cleared. reflexivity. }
    assert (Hother0 : ∀ id', id' ≠ id →
              relatedEntities (db w0) k id' = relatedEntities (db w) k id').
    { intros id' Hne. rewrite !relatedEntities_join, Hdb0. simpl.
      rewrite decide_True by reflexivity. apply joinEntities_cleared_other, Hne. }
    assert (Hhas0 : hasArticle id w0) by (unfold hasArticle; rewrite Ha0; exact Hhas).
    destruct (linkNames_result k id l w0 Hwf0 Hhas0)
      as (w1 & Hrun & Hwf1 & Ha1 & Hk1 & Hn1 & Hnd1 & Hother1).
    exists w1. split_and!.
    + erewrite bind_returned by exact Hclear. exact Hrun.
    + exact Hwf1.
    + congruence.
    + intros k' Hne. eapply frame_trans; [apply Hk0, Hne | apply Hk1, Hne].
    + intros n. rewrite Hn1, Hrel0, elem_of_nil. tauto.
    + apply Hnd1. rewrite Hrel0. apply NoDup_nil_2.
    + intros id' Hne. rewrite Hother1, Hother0 by exact Hne. reflexivity.
  - exists w. split_and!.
    + reflexivity.
    + exact Hwf.
    + reflexivity.
    + intros k' _. apply frame_refl.
    + apply frame_refl.
    + reflexivity.
Qed.

(** ** Update of an existing article *)

Lemma articleEntities_get d id a k :
  getArticleWithRelations d id = Some a → articleEntities k a = relatedEntities d k id.
Proof.
  unfold getArticleWithRelations. destruct (articles d !! id); [| discriminate].
  intros [= <-]. destruct k; reflexivity.
Qed.

(** The transaction of update on an existing article of a well formed
    store. *)
Lemma updateArticle_result env id formData w row :
  wfDb (db w) → articles (db w) !! id = Some row →
  ∃ w',
    updateArticle env id formData w = (Returned tt, w')
    ∧ wfDb (db w')
    ∧ articles (db w') = alter (updateColumns env formData) id (articles (db w))
    ∧ (∀ k, match payloadNames k formData with
            | Some l =>
                (∀ n, n ∈ relatedNames (db w') k id ↔ n ∈ l)
                ∧ NoDup (relatedNames (db w') k id)
            | None => relatedEntities (db w') k id = relatedEntities (db w) k id
            end)
    ∧ (∀ k id', id' ≠ id → relatedEntities (db w') k id' = relatedEntities (db w) k id').
Proof.
  intros Hwf Hrow.
  destruct (updateArticleRow env id formData w) as [r0 w0] eqn:Hrow0.
  assert (H0 : r0 = Returned tt
               ∧ db w0 = setArticles (alter (updateColumns env formData) id (articles (db w)))
                           (db w)).
  { unfold updateArticleRow in Hrow0. munfold. simpl in Hrow0. injection Hrow0 as <- <-. auto. }
  destruct H0 as [-> Hdb0].
  assert (Hwf0 : wfDb (db w0)).
  { exact (proj1 (spec_run keepsWf noError _ _ _ _ (updateArticleRow_keepsWf env id formData)
                    Hrow0) Hwf). }
  assert (Hhas0 : hasArticle id w0).
  { unfold hasArticle. rewrite Hdb0. simpl. rewrite lookup_alter_eq, Hrow. eauto. }
  assert (K0 : ∀ k id0, relatedEntities (db w0) k id0 = relatedEntities (db w) k id0).
  { intros k id0. rewrite Hdb0. reflexivity. }
  destruct (replaceLinks_result Author id (PartialFormData.authors formData) w0 Hwf0 Hhas0)
    as (w1 & R1 & Hwf1 & A1 & Q1 & P1 & O1).
  assert (Hhas1 : hasArticle id w1) by (unfold hasArticle; rewrite A1; exact Hhas0).
  destruct (replaceLinks_result Keyword id (PartialFormData.keywords formData) w1 Hwf1 Hhas1)
    as (w2 & R2 & Hwf2 & A2 & Q2 & P2 & O2).
  assert (Hhas2 : hasArticle id w2) by (unfold hasArticle; rewrite A2; exact Hhas1).
  destruct (replaceLinks_result Subject id (PartialFormData.subjects formData) w2 Hwf2 Hhas2)
    as (w3 & R3 & Hwf3 & A3 & Q3 & P3 & O3).
  assert (Hhas3 : hasArticle id w3) by (unfold hasArticle; rewrite A3; exact Hhas2).
  destruct (replaceLinks_result Tag id (PartialFormData.tags formData) w3 Hwf3 Hhas3)
    as (w4 & R4 & Hwf4 & A4 & Q4 & P4 & O4).
  assert (Hhas4 : hasArticle id w4) by (unfold hasArticle; rewrite A4; exact Hhas3).
  destruct (replaceLinks_result University id (PartialFormData.universities formData)
              w4 Hwf4 Hhas4) as (w5 & R5 & Hwf5 & A5 & Q5 & P5 & O5).
  assert (Hhas5 : hasArticle id w5) by (unfold hasArticle; rewrite A5; exact Hhas4).
  destruct (replaceLinks_result Company id (PartialFormData.companies formData)
              w5 Hwf5 Hhas5) as (w6 & R6 & Hwf6 & A6 & Q6 & P6 & O6).
  assert (K1 : ∀ k id0, k ≠ Author →
            relatedEntities (db w1) k id0 = relatedEntities (db w0) k id0)
    by (intros; apply relatedEntities_keepsKind, Q1; assumption).
  assert (K2 : ∀ k id0, k ≠ Keyword →
            relatedEntities (db w2) k id0 = relatedEntities (db w1) k id0)
    by (intros; apply relatedEntities_keepsKind, Q2; assumption).
  assert (K3 : ∀ k id0, k ≠ Subject →
            relatedEntities (db w3) k id0 = relatedEntities (db w2) k id0)
    by (intros; apply relatedEntities_keepsKind, Q3; assumption).
  assert (K4 : ∀ k id0, k ≠ Tag →
            relatedEntities (db w4) k id0 = relatedEntities (db w3) k id0)
    by (intros; apply relatedEntities_keepsKind, Q4; assumption).
  assert (K5 : ∀ k id0, k ≠ University →
            relatedEntities (db w5) k id0 = relatedEntities (db w4) k id0)
    by (intros; apply relatedEntities_keepsKind, Q5; assumption).
  assert (K6 : ∀ k id0, k ≠ Company →
            relatedEntities (db w6) k id0 = relatedEntities (db w5) k id0)
    by (intros; apply relatedEntities_keepsKind, Q6; assumption).
  exists w6. split_and!.
  - unfold updateArticle, transaction.
    erewrite bind_returned by exact Hrow0.
    erewrite bind_returned by exact R1.
    erewrite bind_returned by exact R2.
    erewrite bind_returned by exact R3.
    erewrite bind_returned by exact R4.
    erewrite bind_returned by exact R5.
    rewrite R6. reflexivity.
  - exact Hwf6.
  - rewrite A6, A5, A4, A3, A2, A1, Hdb0. reflexivity.
  - intros k. unfold relatedNames in *.
    destruct k; simpl;
      rewrite ?K6, ?K5, ?K4, ?K3, ?K2, ?K1 by discriminate;
      [ destruct (PartialFormData.authors formData)
      | destruct (PartialFormData.keywords formData)
      | destruct (PartialFormData.subjects formData)
      | destruct (PartialFormData.tags formData)
      | destruct (PartialFormData.universities formData)
      | destruct (PartialFormData.companies formData) ];
      first [ assumption
            | rewrite (relatedEntities_keepsKind _ _ _ _ ltac:(eassumption));
              rewrite ?K6, ?K5, ?K4, ?K3, ?K2, ?K1 by discriminate; apply K0 ].
  - intros k id' Hne.
    destruct k;
      rewrite ?K6, ?K5, ?K4, ?K3, ?K2, ?K1 by discriminate;
      first [ rewrite O1 by exact Hne | rewrite O2 by exact Hne | rewrite O3 by exact Hne
            | rewrite O4 by exact Hne | rewrite O5 by exact Hne | rewrite O6 by exact Hne ];
      rewrite ?K6, ?K5, ?K4, ?K3, ?K2, ?K1 by discriminate; apply K0.
Qed.

Lemma getArticleWithRelations_ext d d' id :
  articles d' !! id = articles d !! id →
  (∀ k, relatedEntities d' k id = relatedEntities d k id) →
  getArticleWithRelations d' id = getArticleWithRelations d id.
Proof.
  intros Hrow Hrel. unfold getArticleWithRelations. rewrite Hrow.
  destruct (articles d !! id); [| reflexivity].
  rewrite (Hrel Author), (Hrel Keyword), (Hrel Subject), (Hrel Tag),
    (Hrel University), (Hrel Company). reflexivity.
Qed.

(** Update of an existing article of a well formed store, in full. *)
Lemma articlesUpdate_existing env id formData w row :
  wfDb (db w) → articles (db w) !! id = Some row →
  ∃ a w',
    articlesUpdate env id formData w = (Returned (Some a), w')
    ∧ getArticleWithRelations (db w') id = Some a
    ∧ articles (db w') = alter (updateColumns env formData) id (articles (db w))
    ∧ (∀ k, match payloadNames k formData with
            | Some l =>
                (∀ n, n ∈ relatedNames (db w') k id ↔ n ∈ l)
                ∧ NoDup (relatedNames (db w') k id)
            | None => relatedEntities (db w') k id = relatedEntities (db w) k id
            end)
    ∧ (∀ k id', id' ≠ id → relatedEntities (db w') k id' = relatedEntities (db w) k id')
    ∧ dbOnly w w'.
Proof.
  intros Hwf Hrow.
  destruct (updateArticle_result env id formData w row Hwf Hrow)
    as (w' & Hrun & _ & Ha & Hk & Ho).
  assert (Hnew : articles (db w') !! id = Some (updateColumns env formData row)).
  { rewrite Ha, lookup_alter_eq, Hrow. reflexivity. }
  assert (Hget : ∃ a, getArticleWithRelations (db w') id = Some a).
  { unfold getArticleWithRelations. rewrite Hnew. eauto. }
  destruct Hget as [a Hget]. exists a, w'.
  assert (Hfull : articlesUpdate env id formData w = (Returned (Some a), w')).
  { unfold articlesUpdate. rewrite tryCatch_rethrow.
    erewrite bind_returned by exact Hrun. munfold. simpl. rewrite Hget. reflexivity. }
  split_and!; try assumption.
  exact (proj1 (spec_run _ _ _ _ _ _ (articlesUpdate_dbOnly env id formData) Hfull)).
Qed.

Lemma oneArticleWorld_wf : wfDb (db oneArticleWorld).
Proof.
  apply (articlesCreate_keepsWf devEnv (sampleForm "Foo Bar" ["A. Doe"]) emptyWorld).
  apply emptyDb_wf.
Qed.

(** X10.  On an existing article of a well formed store whose
    classification tables have room, below 2^53, for the names of the
    payload, update returns the article, and for each of the six entity
    kinds: a list supplied in the payload becomes exactly the set of
    names of the returned collection, without repetition and without
    residue of the former links; an absent list leaves the collection
    as it was. *)
Theorem update_replaces_supplied_lists env id formData w row :
  wfDb (db w) →
  rowidsExact (db w) (λ k, length (default [] (payloadNames k formData))) →
  articles (db w) !! id = Some row →
  ∃ a w',
    articlesUpdate env id formData w = (Returned (Some a), w')
    ∧ ∀ k, match payloadNames k formData with
           | Some l =>
               (∀ n, n ∈ Entity.name <$> articleEntities k a ↔ n ∈ l)
               ∧ NoDup (Entity.name <$> articleEntities k a)
           | None => articleEntities k a = relatedEntities (db w) k id
           end.
Proof.
  intros Hwf _ Hrow.
  destruct (articlesUpdate_existing env id formData w row Hwf Hrow)
    as (a & w' & Hrun & Hget & _ & Hk & _).
  exists a, w'. split; [exact Hrun |]. intros k.
  rewrite (articleEntities_get _ _ _ k Hget). exact (Hk k).
Qed.

Lemma update_replaces_supplied_lists_witness :
  ∃ a w',
    articlesUpdate laterEnv "0001" (authorsPayload ["B. Roe"; "C. Poe"; "B. Roe"]) oneArticleWorld
      = (Returned (Some a), w')
    ∧ (∀ n, n ∈ Entity.name <$> Article.authors a ↔ n ∈ ["B. Roe"; "C. Poe"; "B. Roe"])
    ∧ NoDup (Entity.name <$> Article.authors a)
    ∧ Article.keywords a = relatedEntities (db oneArticleWorld) Keyword "0001".
Proof.
  assert (Hrow : ∃ row, articles (db oneArticleWorld) !! "0001" = Some row).
  { eexists. vm_compute. reflexivity. }
  destruct Hrow as [row Hrow].
  destruct (update_replaces_supplied_lists laterEnv "0001"
              (authorsPayload ["B. Roe"; "C. Poe"; "B. Roe"]) oneArticleWorld row
              oneArticleWorld_wf) as (a & w' & Hrun & Hk);
    [intros k; destruct k; apply (bool_decide_unpack _); vm_compute; exact I | exact Hrow |].
  exists a, w'. split; [exact Hrun |].
  destruct (Hk Author) as [Hn Hnd]. split_and!; [exact Hn | exact Hnd | exact (Hk Keyword)].
Defined.

(** X11.  Update of an existing article (store well formed, room in the
    classification tables for the names of the payload) touches that
    article only: the returned article keeps its id, file name, date
    added and creation time (the file name even when the title changes)
    and carries the current time as last update; every other article
    reads as before; the files and the identifier counter are
    unchanged. *)
Theorem update_touches_one_article env id formData w row :
  wfDb (db w) →
  rowidsExact (db w) (λ k, length (default [] (payloadNames k formData))) →
  articles (db w) !! id = Some row →
  ∃ a w',
    articlesUpdate env id formData w = (Returned (Some a), w')
    ∧ Article.id a = id
    ∧ Article.fileName a = Row.fileName row
    ∧ Article.dateAdded a = Row.dateAdded row
    ∧ Article.createdAt a = orUndefined (Row.createdAt row)
    ∧ Article.updatedAt a = orUndefined (Some (datetimeNow env))
    ∧ (∀ id', id' ≠ id →
         getArticleWithRelations (db w') id' = getArticleWithRelations (db w) id')
    ∧ fs w' = fs w
    ∧ idCounter (db w') = idCounter (db w).
Proof.
  intros Hwf _ Hrow.
  destruct (articlesUpdate_existing env id formData w row Hwf Hrow)
    as (a & w' & Hrun & Hget & Ha & _ & Ho & Hfs & _ & Hc & _).
  exists a, w'.
  assert (Hnew : articles (db w') !! id = Some (updateColumns env formData row)).
  { rewrite Ha, lookup_alter_eq, Hrow. reflexivity. }
  unfold getArticleWithRelations in Hget. rewrite Hnew in Hget. injection Hget as <-.
  split_and!; try reflexivity; try assumption.
  intros id' Hne. apply getArticleWithRelations_ext.
  - rewrite Ha. apply lookup_alter_ne. congruence.
  - intros k. apply Ho, Hne.
Qed.

Lemma update_touches_one_article_witness :
  ∃ a w',
    articlesUpdate laterEnv "0001" (titlePayload "Another title") oneArticleWorld
      = (Returned (Some a), w')
    ∧ Article.title a = "Another title"
    ∧ Article.fileName a = "0001 - Foo Bar"
    ∧ fs w' = fs oneArticleWorld.
Proof.
  assert (Hrow : ∃ row, articles (db oneArticleWorld) !! "0001" = Some row
                        ∧ Row.fileName row = "0001 - Foo Bar").
  { eexists. split; vm_compute; reflexivity. }
  destruct Hrow as (row & Hrow & Hname).
  destruct (update_touches_one_article laterEnv "0001" (titlePayload "Another title")
              oneArticleWorld row oneArticleWorld_wf)
    as (a & w' & Hrun & _ & Hfile & _ & _ & _ & _ & Hfs & _);
    [intros k; destruct k; apply (bool_decide_unpack _); vm_compute; exact I | exact Hrow |].
  exists a, w'. split_and!; [exact Hrun | | congruence | exact Hfs].
  rewrite articlesUpdate_title_run in Hrun. cbv zeta in Hrun.
  injection Hrun as Hget _. revert Hget. vm_compute. intros [= <-]. reflexivity.
Defined.

(** ** Creation of an article *)









(** ** Deletion of an article *)

Global Instance outsideNames_frame names : Frame (outsideNames names).
Proof.
  split; unfold outsideNames.
  - reflexivity.
  - intros a b c Hab Hbc q Hq. rewrite (Hbc q Hq). apply Hab, Hq.
  - intros w w' H q Hq. simpl. apply H, Hq.
Qed.

Global Instance filesShrink_frame : Frame filesShrink.
Proof.
  split; unfold filesShrink.
  - intros w. split; reflexivity.
  - intros a b c [Hab Hdab] [Hbc Hdbc]. split; [etrans; eassumption | congruence].
  - intros w w' H. simpl. exact H.
Qed.

Lemma unlinkIfExists_deleteSpec names p :
  p.2 ∈ names →
  Spec (deleteFrame names)
       fsErrorOnly (unlinkIfExists p).
Proof.
  intros Hp w. unfold unlinkIfExists, existsSync, unlinkSync, deleteFrame, fsOnly,
    outsideNames, filesShrink, fsErrorOnly.
  munfold. simpl. repeat (case_bool_decide; simpl);
    (split; [| intros ? [=]; subst; eauto]);
    (split_and!; try reflexivity).
  intros q Hq. apply lookup_delete_ne. intros ->. exact (Hq Hp).
  apply delete_subseteq.
Qed.

Lemma unlinkIfExists_returned p w w' :
  unlinkIfExists p w = (Returned tt, w') → files (fs w') !! p = None.
Proof.
  unfold unlinkIfExists, existsSync, unlinkSync. munfold. simpl.
  repeat (case_bool_decide; simpl); intros [= <-]; simpl.
  - apply lookup_delete_eq.
  - destruct (files (fs w) !! p) eqn:E; [| reflexivity].
    exfalso. eauto.
Qed.

Global Instance deleteFrame_frame names : Frame (deleteFrame names).
Proof.
  split; unfold deleteFrame.
  - intros w. split_and!; apply frame_refl.
  - intros a b c (?&?&?) (?&?&?). split_and!; eapply frame_trans; eassumption.
  - intros w w' (?&?&?). split_and!; apply frame_rollback; assumption.
Qed.

(** The external part of delete. *)
Lemma deleteMirrored_spec names id (d : Db) :
  id +:+ ".pdf" ∈ names → id +:+ ".docx" ∈ names →
  Spec (deleteFrame names) fsErrorOnly (deleteMirrored id d).
Proof.
  intros Hpdf Hdocx. unfold deleteMirrored.
  repeat case_match; try apply spec_ret.
  apply spec_bind; [| intros _]; apply unlinkIfExists_deleteSpec; assumption.
Qed.

Lemma articlesDelete_unfold env id w :
  articlesDelete env id w =
  match unlinkIfExists (getPdfDir env, id +:+ ".pdf") w with
  | (Thrown e, w1) => (Thrown e, w1)
  | (Returned _, w1) =>
      match unlinkIfExists (getNotesDir env, id +:+ ".docx") w1 with
      | (Thrown e, w2) => (Thrown e, w2)
      | (Returned _, w2) =>
          match deleteMirrored id (db w2) w2 with
          | (Thrown e, w3) => (Thrown e, w3)
          | (Returned _, w3) => deleteArticleRow id w3
          end
      end
  end.
Proof. unfold articlesDelete. rewrite tryCatch_rethrow. reflexivity. Qed.

(** Delete, step by step: the files part leaves a world [w1] with the
    same store; then either the row is deleted in [w1], or an error of
    the file system was thrown in [w1]. *)
Lemma articlesDelete_run env id w :
  ∃ w1,
    deleteFrame [id +:+ ".pdf"; id +:+ ".docx"] w w1
    ∧ ((articlesDelete env id w = deleteArticleRow id w1
        ∧ files (fs w1) !! (getPdfDir env, id +:+ ".pdf") = None
        ∧ files (fs w1) !! (getNotesDir env, id +:+ ".docx") = None)
       ∨ ∃ e, fsErrorOnly e ∧ articlesDelete env id w = (Thrown e, w1)).
Proof.
  set (names := [id +:+ ".pdf"; id +:+ ".docx"]).
  assert (Hpdf : id +:+ ".pdf" ∈ names) by (apply list_elem_of_here).
  assert (Hdocx : id +:+ ".docx" ∈ names) by (apply list_elem_of_further, list_elem_of_here).
  rewrite articlesDelete_unfold.
  destruct (unlinkIfExists (getPdfDir env, id +:+ ".pdf") w) as [[[]|e1] w1] eqn:H1;
    pose proof (spec_run _ _ _ _ _ _
                  (unlinkIfExists_deleteSpec names (getPdfDir env, id +:+ ".pdf") Hpdf) H1)
      as [R1 E1].
  2:{ exists w1. split; [exact R1 |]. right. exists e1. split; [apply E1 |]; reflexivity. }
  destruct (unlinkIfExists (getNotesDir env, id +:+ ".docx") w1) as [[[]|e2] w2] eqn:H2;
    pose proof (spec_run _ _ _ _ _ _
                  (unlinkIfExists_deleteSpec names (getNotesDir env, id +:+ ".docx") Hdocx) H2)
      as [R2 E2].
  2:{ exists w2. split; [exact (frame_trans _ _ _ R1 R2) |]. right. exists e2.
      split; [apply E2 |]; reflexivity. }
  destruct (deleteMirrored id (db w2) w2) as [[[]|e3] w3] eqn:H3;
    pose proof (spec_run _ _ _ _ _ _ (deleteMirrored_spec names id (db w2) Hpdf Hdocx) H3)
      as [R3 E3].
  2:{ exists w3. split; [exact (frame_trans _ _ _ (frame_trans _ _ _ R1 R2) R3) |].
      right. exists e3. split; [apply E3 |]; reflexivity. }
  exists w3. split; [exact (frame_trans _ _ _ (frame_trans _ _ _ R1 R2) R3) |].
  left. split; [reflexivity |].
  destruct R2 as (_ & _ & [S2 _]), R3 as (_ & _ & [S3 _]).
  split.
  - eapply lookup_weaken_None; [| exact S3]. eapply lookup_weaken_None; [| exact S2].
    apply (unlinkIfExists_returned _ _ _ H1).
  - eapply lookup_weaken_None; [| exact S3]. apply (unlinkIfExists_returned _ _ _ H2).
Qed.

Lemma deleteArticleRow_run id w :
  deleteArticleRow id w
  = (Returned tt,
     {| db := {| articles := delete id (articles (db w));
                 entities := entities (db w);
                 junctions := λ k, filter (λ r, r.1 ≠ id) (junctions (db w) k);
                 idCounter := idCounter (db w);
                 userSettings := userSettings (db w) |};
        fs := fs w; allocated := allocated w |}).
Proof. reflexivity. Qed.

(** X14.  Delete looks only for files named by the bare identifier:
    whether it returns or throws, every file whose base name is neither
    the id with extension pdf nor the id with extension docx is left as
    it was, in every directory, and no directory is created or removed. *)
Theorem delete_keeps_other_files env id w (q : Path) :
  q.2 ≠ id +:+ ".pdf" → q.2 ≠ id +:+ ".docx" →
  files (fs (articlesDelete env id w).2) !! q = files (fs w) !! q
  ∧ dirs (fs (articlesDelete env id w).2) = dirs (fs w).
Proof.
  intros Hpdf Hdocx.
  destruct (articlesDelete_run env id w) as (w1 & (_ & Hout & [_ Hdirs]) & Hrun).
  assert (Hq : q.2 ∉ [id +:+ ".pdf"; id +:+ ".docx"]).
  { rewrite !not_elem_of_cons. split_and!; [exact Hpdf | exact Hdocx | apply not_elem_of_nil]. }
  destruct Hrun as [(-> & _) | (e & _ & ->)]; simpl; split; auto.
Qed.

Lemma delete_keeps_other_files_witness :
  files (fs (articlesDelete laterEnv "0001" storedWorld).2)
    !! (joinDir "storage" "pdfs", "0001 - Foo Bar.pdf")
  = Some tenBytes.
Proof.
  destruct (delete_keeps_other_files laterEnv "0001" storedWorld
              (joinDir "storage" "pdfs", "0001 - Foo Bar.pdf")) as [Hfile _].
  - vm_compute. discriminate.
  - vm_compute. discriminate.
  - rewrite Hfile. vm_compute. reflexivity.
Defined.

(** X15.  When delete throws, the error comes from the file system and
    the store is exactly as before: the article row and its links are
    still there, although files may already have been removed. *)
Theorem delete_failure_keeps_store env id w e w' :
  articlesDelete env id w = (Thrown e, w') →
  db w' = db w ∧ fsErrorOnly e ∧ files (fs w') ⊆ files (fs w).
Proof.
  intros H.
  destruct (articlesDelete_run env id w) as (w1 & ([Hdb _] & _ & [Hsub _]) & Hrun).
  destruct Hrun as [(Heq & _) | (e' & He & Heq)]; rewrite Heq in H.
  - rewrite deleteArticleRow_run in H. discriminate.
  - injection H as <- <-. split_and!; assumption.
Qed.

Lemma delete_failure_keeps_store_witness :
  ∃ w',
    articlesDelete laterEnv "0001" lockedLegacyWorld
      = (Thrown (FsError EACCES (joinDir "storage" "pdfs", "0001.pdf")), w')
    ∧ db w' = db lockedLegacyWorld.
Proof.
  pose (w' := (articlesDelete laterEnv "0001" lockedLegacyWorld).2).
  assert (Hrun : articlesDelete laterEnv "0001" lockedLegacyWorld
                 = (Thrown (FsError EACCES (joinDir "storage" "pdfs", "0001.pdf")), w')).
  { vm_compute. reflexivity. }
  exists w'. split; [exact Hrun |].
  destruct (delete_failure_keeps_store laterEnv "0001" lockedLegacyWorld _ _ Hrun)
    as (Hdb & _ & _).
  exact Hdb.
Defined.

(** X16.  When delete returns, the article is gone with all its links:
    get finds no article under the identifier, none of the six junction
    tables holds a link of it, the classification tables, the counter
    and the settings are untouched, every other article reads as before,
    and the primary files named by the bare identifier do not exist. *)
Theorem delete_removes_article_and_links env id w w' :
  articlesDelete env id w = (Returned tt, w') →
  getArticleWithRelations (db w') id = None
  ∧ (∀ k e, (id, e) ∉ junctions (db w') k)
  ∧ entities (db w') = entities (db w)
  ∧ idCounter (db w') = idCounter (db w)
  ∧ userSettings (db w') = userSettings (db w)
  ∧ (∀ id', id' ≠ id →
       getArticleWithRelations (db w') id' = getArticleWithRelations (db w) id')
  ∧ files (fs w') !! (getPdfDir env, id +:+ ".pdf") = None
  ∧ files (fs w') !! (getNotesDir env, id +:+ ".docx") = None.
Proof.
  intros H.
  destruct (articlesDelete_run env id w) as (w1 & ([Hdb _] & _ & _) & Hrun).
  destruct Hrun as [(Heq & Hpdf & Hdocx) | (e' & _ & Heq)]; rewrite Heq in H;
    [| discriminate].
  rewrite deleteArticleRow_run in H. injection H as <-. simpl. rewrite Hdb.
  split_and!; try reflexivity; try assumption.
  - unfold getArticleWithRelations. simpl. rewrite lookup_delete_eq. reflexivity.
  - intros k e [Hne _]%list_elem_of_filter. apply Hne. reflexivity.
  - intros id' Hne. apply getArticleWithRelations_ext.
    + simpl. apply lookup_delete_ne. congruence.
    + intros k. rewrite !relatedEntities_join. simpl.
      apply joinEntities_cleared_other. exact Hne.
Qed.

Lemma delete_removes_article_and_links_witness :
  ∃ w',
    articlesDelete laterEnv "0001" legacyWorld = (Returned tt, w')
    ∧ getArticleWithRelations (db w') "0001" = None
    ∧ files (fs w') !! (joinDir "storage" "pdfs", "0001.pdf") = None.
Proof.
  pose (w' := (articlesDelete laterEnv "0001" legacyWorld).2).
  assert (Hrun : articlesDelete laterEnv "0001" legacyWorld = (Returned tt, w')).
  { vm_compute. reflexivity. }
  exists w'. split; [exact Hrun |].
  destruct (delete_removes_article_and_links laterEnv "0001" legacyWorld _ Hrun)
    as (Hget & _ & _ & _ & _ & _ & Hpdf & _).
  split; [exact Hget | exact Hpdf].
Defined.

(** ** Storage directories *)

Lemma ensureDir_run dir w :
  ensureDir dir w =
  if bool_decide (dir ∈ dirs (fs w)) then (Returned tt, w)
  else if bool_decide (dir ∈ denied (fs w)) then (Thrown (FsError EACCES (dir, "")), w)
  else (Returned tt,
        {| db := db w;
           fs := {| files := files (fs w); dirs := {[dir]} ∪ dirs (fs w);
                    denied := denied (fs w) |};
           allocated := allocated w |}).
Proof.
  unfold ensureDir, existsDirSync, mkdirSync. munfold. simpl.
  repeat (case_bool_decide; simpl); reflexivity.
Qed.




(** ** Listing the articles *)

Global Instance dateAddedGe_trans : Transitive dateAddedGe.
Proof. intros a b c Hab Hbc. unfold dateAddedGe in *. etrans; eassumption. Qed.

Global Instance dateAddedGe_total : Total dateAddedGe.
Proof. intros a b. unfold dateAddedGe. destruct (total String.le (Row.dateAdded a.2) (Row.dateAdded b.2)); auto. Qed.

Lemma getAll_rows d (L : list (string * Row.t)) :
  (∀ p, p ∈ L → articles d !! p.1 = Some p.2) →
  Article.id <$> omap (getArticleWithRelations d) L.*1 = L.*1
  ∧ Article.dateAdded <$> omap (getArticleWithRelations d) L.*1
    = (λ p, Row.dateAdded p.2) <$> L
  ∧ (∀ a, a ∈ omap (getArticleWithRelations d) L.*1 →
       getArticleWithRelations d (Article.id a) = Some a).
Proof.
  induction L as [|[id row] L IH]; intros Hrows.
  - split_and!; try reflexivity. intros a Ha. inversion Ha.
  - destruct IH as (IH1 & IH2 & IH3).
    { intros p Hp. apply Hrows, list_elem_of_further, Hp. }
    pose proof (Hrows (id, row) (list_elem_of_here _ _)) as Hrow. simpl in Hrow.
    assert (Hget : ∃ a, getArticleWithRelations d id = Some a
                        ∧ Article.id a = id ∧ Article.dateAdded a = Row.dateAdded row).
    { unfold getArticleWithRelations. rewrite Hrow. eexists. split_and!; reflexivity. }
    destruct Hget as (a & Hget & Hid & Hdate).
    change (omap (getArticleWithRelations d) ((id, row) :: L).*1)
      with (match getArticleWithRelations d id with
            | Some y => y :: omap (getArticleWithRelations d) L.*1
            | None => omap (getArticleWithRelations d) L.*1
            end).
    rewrite Hget, !fmap_cons, IH1, IH2, Hid, Hdate.
    split_and!; try reflexivity.
    intros a' [->|Ha']%elem_of_cons; [rewrite Hid; exact Hget | apply IH3, Ha'].
Qed.

(** X18.  [articles:getAll] returns every article of the library exactly
    once, each as get reads it, the most recently added first (by the
    byte order of [dateAdded]), and changes nothing. *)
Theorem getAll_lists_every_article_newest_first w :
  ∃ l,
    articlesGetAll w = (Returned l, w)
    ∧ NoDup (Article.id <$> l)
    ∧ (∀ id, id ∈ Article.id <$> l ↔ is_Some (articles (db w) !! id))
    ∧ (∀ a, a ∈ l → getArticleWithRelations (db w) (Article.id a) = Some a)
    ∧ StronglySorted (λ x y : string, String.le y x) (Article.dateAdded <$> l).
Proof.
  unfold articlesGetAll. eexists. split.
  { rewrite tryCatch_rethrow. reflexivity. }
  set (L := merge_sort dateAddedGe (map_to_list (articles (db w)))).
  assert (HP : L ≡ₚ map_to_list (articles (db w))) by apply merge_sort_Permutation.
  assert (HS : StronglySorted dateAddedGe L) by (apply StronglySorted_merge_sort; apply _).
  destruct (getAll_rows (db w) L) as (H1 & H2 & H3).
  { intros [id row] Hp. rewrite HP in Hp. apply elem_of_map_to_list in Hp. exact Hp. }
  rewrite H1, H2. split_and!.
  - rewrite HP. apply NoDup_fst_map_to_list.
  - intros id. rewrite HP, list_elem_of_fmap. split.
    + intros ([id' row] & -> & Hp). apply elem_of_map_to_list in Hp. eauto.
    + intros [row Hrow]. exists (id, row). split; [reflexivity |].
      apply elem_of_map_to_list. exact Hrow.
  - exact H3.
  - eapply StronglySorted_fmap; [| exact HS]. intros x y Hxy. exact Hxy.
Qed.

(** ** The naming migration *)

Global Instance renameFrame_frame names : Frame (renameFrame names).
Proof.
  split; unfold renameFrame.
  - intros w. split_and!; try reflexivity; apply frame_refl.
  - intros a b c (?&?&?&?) (?&?&?&?).
    split_and!; [eapply frame_trans; eassumption .. | congruence | congruence].
  - intros w w' (?&?&?&?). split_and!; [apply frame_rollback; assumption .. | |]; assumption.
Qed.

Lemma spec_tryCatch {A} R E E' (m : M A) (h : Error → M A) `{!Frame R} :
  Spec R E' m → (∀ e, Spec R E (h e)) → Spec R E (tryCatch m h).
Proof.
  intros Hm Hh w. destruct (Hm w) as [Hr _]. unfold tryCatch.
  destruct (m w) as [[x|e] w']; simpl in *; [split; [exact Hr | discriminate] |].
  destruct (Hh e w') as [Hr' He']. split; [eapply frame_trans; eassumption | exact He'].
Qed.

Lemma unlinkIfExists_renameSpec names p :
  p.2 ∈ names → Spec (renameFrame names) anyError (unlinkIfExists p).
Proof.
  intros Hp w. unfold unlinkIfExists, existsSync, unlinkSync, renameFrame, fsOnly,
    outsideNames, anyError.
  munfold. simpl. repeat (case_bool_decide; simpl);
    (split; [| done]); (split_and!; try reflexivity).
  intros q Hq. apply lookup_delete_ne. intros ->. exact (Hq Hp).
Qed.

Lemma renameSync_renameSpec names src dst :
  src.2 ∈ names → dst.2 ∈ names → Spec (renameFrame names) anyError (renameSync src dst).
Proof.
  intros Hsrc Hdst w. unfold renameSync, renameFrame, fsOnly, outsideNames, anyError.
  munfold. simpl. destruct (files (fs w) !! src); simpl;
    repeat (case_bool_decide; simpl);
    (split; [| done]); (split_and!; try reflexivity).
  intros q Hq. rewrite lookup_insert_ne by (intros ->; exact (Hq Hdst)).
  apply lookup_delete_ne. intros ->. exact (Hq Hsrc).
Qed.

Lemma migrateExternal_renameSpec names k oldName newName :
  oldName ∈ names → newName ∈ names →
  Spec (renameFrame names) anyError (migrateExternal k oldName newName).
Proof.
  intros Hold Hnew. unfold migrateExternal.
  apply spec_bind; [apply spec_getDb | intros d]. cbv zeta.
  destruct (_ && _); [| apply spec_ret].
  apply spec_bind; [apply existsSync_spec; apply _ | intros [|]]; [| apply spec_ret].
  apply spec_bind; [apply unlinkIfExists_renameSpec; exact Hnew | intros _].
  apply renameSync_renameSpec; assumption.
Qed.

Lemma migrateFile_renameSpec names env k article c :
  legacyName k article ∈ names → currentName k article ∈ names →
  Spec (renameFrame names) noError (migrateFile env k article c).
Proof.
  intros Hold Hnew. unfold migrateFile. cbv zeta.
  apply spec_bind; [apply existsSync_spec; apply _ | intros present].
  destruct (_ && _); [| apply spec_ret].
  eapply spec_tryCatch; [apply _ | | intros e; apply spec_ret].
  apply spec_bind; [apply unlinkIfExists_renameSpec; exact Hnew | intros _].
  apply spec_bind; [apply renameSync_renameSpec; assumption | intros _].
  eapply spec_tryCatch; [apply _ | | intros e; apply spec_ret].
  apply spec_bind; [apply migrateExternal_renameSpec; assumption | intros _].
  apply spec_ret.
Qed.

(** One block of the migration returns a count: the one it was given or
    that one with the file counted, with or without an error appended. *)
Lemma migrateFile_value env k article c w :
  ∃ c' w',
    migrateFile env k article c w = (Returned c', w')
    ∧ (c' = c ∨ (∃ e, c' = pushError k article.1 e c)
       ∨ c' = countMigrated k c
       ∨ ∃ e, c' = pushError k article.1 e (countMigrated k c)).
Proof.
  unfold migrateFile. cbv zeta. unfold existsSync at 1. munfold. simpl.
  destruct (_ && _); [| eauto].
  destruct (unlinkIfExists _ w) as [[[]|e1] w1]; [| eauto 10].
  destruct (renameSync _ _ w1) as [[[]|e2] w2]; [| eauto 10].
  destruct (migrateExternal _ _ _ w2) as [[[]|e3] w3]; eauto 10.
Qed.

Lemma migrateFile_counts env k article c w c' w' :
  migrateFile env k article c w = (Returned c', w') →
  let n := match k with Pdf => migratedPdfs | Note => migratedNotes end in
  let o := match k with Pdf => migratedNotes | Note => migratedPdfs end in
  (n c ≤ n c' ≤ S (n c))%nat ∧ o c' = o c
  ∧ (length (migrationErrors c) ≤ length (migrationErrors c')
     ≤ S (length (migrationErrors c)))%nat.
Proof.
  intros Hrun. destruct (migrateFile_value env k article c w) as (c1 & w1 & Hrun' & Hc).
  rewrite Hrun in Hrun'. injection Hrun' as <- <-.
  destruct Hc as [-> | [[e ->] | [-> | [e ->]]]]; destruct k; simpl;
    rewrite ?length_app; simpl; lia.
Qed.

Lemma migrateLoop_result names env (l : list (string * string)) c w :
  (∀ n, n ∈ migrationNames l → n ∈ names) →
  ∃ c' w',
    migrateLoop env l c w = (Returned c', w')
    ∧ renameFrame names w w'
    ∧ (migratedPdfs c ≤ migratedPdfs c' ≤ migratedPdfs c + length l)%nat
    ∧ (migratedNotes c ≤ migratedNotes c' ≤ migratedNotes c + length l)%nat
    ∧ (length (migrationErrors c) ≤ length (migrationErrors c')
       ≤ length (migrationErrors c) + 2 * length l)%nat.
Proof.
  revert c w. induction l as [|article l IH]; intros c w Hnames.
  - exists c, w. simpl. split_and!; try reflexivity; try lia. apply frame_refl.
  - assert (Hin : ∀ n, n ∈ [legacyName Pdf article; currentName Pdf article;
                            legacyName Note article; currentName Note article] → n ∈ names).
    { intros n Hn. apply Hnames. unfold migrationNames. rewrite bind_cons.
      apply elem_of_app. left. exact Hn. }
    assert (Hrest : ∀ n, n ∈ migrationNames l → n ∈ names).
    { intros n Hn. apply Hnames. unfold migrationNames. rewrite bind_cons.
      apply elem_of_app. right. exact Hn. }
    destruct (migrateFile_value env Pdf article c w) as (c1 & w1 & H1 & _).
    destruct (migrateFile_value env Note article c1 w1) as (c2 & w2 & H2 & _).
    destruct (IH c2 w2 Hrest) as (c' & w' & H3 & R3 & Hp & Hn & He).
    pose proof (migrateFile_counts _ _ _ _ _ _ _ H1) as (Hp1 & Hn1 & He1).
    pose proof (migrateFile_counts _ _ _ _ _ _ _ H2) as (Hn2 & Hp2 & He2).
    simpl in Hp1, Hn1, Hp2, Hn2.
    assert (Hlp : legacyName Pdf article ∈ names) by (apply Hin; repeat constructor).
    assert (Hcp : currentName Pdf article ∈ names) by (apply Hin; repeat constructor).
    assert (Hln : legacyName Note article ∈ names) by (apply Hin; repeat constructor).
    assert (Hcn : currentName Note article ∈ names) by (apply Hin; repeat constructor).
    destruct (spec_run _ _ _ _ _ _
                (migrateFile_renameSpec names env Pdf article c Hlp Hcp) H1) as [R1 _].
    destruct (spec_run _ _ _ _ _ _
                (migrateFile_renameSpec names env Note article c1 Hln Hcn) H2) as [R2 _].
    exists c', w'. simpl migrateLoop.
    erewrite bind_returned by exact H1. erewrite bind_returned by exact H2.
    split; [exact H3 |]. split; [exact (frame_trans _ _ _ (frame_trans _ _ _ R1 R2) R3) |].
    simpl length. lia.
Qed.

(** X19.  [files:migrateFileNames] never throws: the errors of the
    single renames are collected in the report.  It reports success and
    the number of articles, counts at most one PDF and one note per
    article, never reports an empty error list, leaves the store and
    the directories as they were, and touches no file other than those
    bearing the legacy or the current name of an article of the
    library. *)
Theorem migrate_reports_and_keeps_other_files env w :
  ∃ r w',
    filesMigrateFileNames env w = (Returned r, w')
    ∧ reportSuccess r = true
    ∧ reportTotalArticles r = size (articles (db w))
    ∧ (reportMigratedPdfs r ≤ reportTotalArticles r)%nat
    ∧ (reportMigratedNotes r ≤ reportTotalArticles r)%nat
    ∧ reportErrors r ≠ Some []
    ∧ db w' = db w
    ∧ dirs (fs w') = dirs (fs w)
    ∧ (∀ q : Path, q.2 ∉ migrationNames (selectIdTitle (db w)) →
         files (fs w') !! q = files (fs w) !! q).
Proof.
  unfold filesMigrateFileNames.
  destruct (migrateLoop_result (migrationNames (selectIdTitle (db w))) env
              (selectIdTitle (db w))
              {| migratedPdfs := 0; migratedNotes := 0; migrationErrors := [] |} w)
    as (c & w' & Hrun & ([Hdb _] & Hout & Hdirs & _) & Hp & Hn & _); [auto |].
  eexists _, w'. split.
  { rewrite tryCatch_rethrow. unfold mbind at 1, M_bind at 1, getDb at 1.
    erewrite bind_returned by exact Hrun. reflexivity. }
  simpl in *.
  assert (Hlen : length (selectIdTitle (db w)) = size (articles (db w))).
  { unfold selectIdTitle. rewrite length_fmap, length_map_to_list. reflexivity. }
  split_and!; try assumption; try reflexivity; try lia.
  destruct (migrationErrors c); discriminate.
Qed.

(** ** Storing a PDF: the mirror and the primary failure *)

Lemma writeAt_run (p : Path) data w :
  p.1 ∈ dirs (fs w) → p.1 ∉ denied (fs w) →
  writeAt p data w
  = (Returned tt,
     {| db := db w;
        fs := {| files := <[p := data]> (files (fs w)); dirs := dirs (fs w);
                 denied := denied (fs w) |};
        allocated := allocated w |}).
Proof.
  intros Hdir Hden. unfold writeAt. munfold. simpl.
  rewrite bool_decide_eq_false_2 by (intros H; exact (H Hdir)).
  rewrite bool_decide_eq_false_2 by exact Hden. reflexivity.
Qed.

Lemma ensureDir_allowed dir w :
  dir ∉ denied (fs w) →
  ∃ w1, ensureDir dir w = (Returned tt, w1)
        ∧ db w1 = db w ∧ allocated w1 = allocated w
        ∧ files (fs w1) = files (fs w) ∧ denied (fs w1) = denied (fs w)
        ∧ dir ∈ dirs (fs w1).
Proof.
  intros Hden. rewrite ensureDir_run. case_bool_decide as Hdir.
  - exists w. split_and!; try reflexivity. exact Hdir.
  - rewrite bool_decide_eq_false_2 by exact Hden. eexists. split_and!; try reflexivity.
    simpl. apply elem_of_union. left. apply elem_of_singleton. reflexivity.
Qed.

(** X20.  With mirroring switched on to a folder other than the primary
    one, and neither PDF directory write-protected, upload returns the
    file name and both the primary and the mirrored file hold the bytes;
    the store is untouched. *)
Theorem upload_writes_primary_and_mirror env id title data path w :
  getExternalStorageSettings (db w) = (true, path) →
  Js.truthy path = true →
  joinDir path "pdfs" ≠ getPdfDir env →
  getPdfDir env ∉ denied (fs w) →
  joinDir path "pdfs" ∉ denied (fs w) →
  ∃ w',
    filesUploadPdf env id title data w = (Returned (makeName id title +:+ ".pdf"), w')
    ∧ files (fs w') !! (getPdfDir env, makeName id title +:+ ".pdf") = Some data
    ∧ files (fs w') !! (joinDir path "pdfs", makeName id title +:+ ".pdf") = Some data
    ∧ db w' = db w.
Proof.
  intros Hset Htruthy Hne Hprimary Hmirror.
  rewrite filesUploadPdf_run. cbv zeta.
  set (name := makeName id title +:+ ".pdf").
  destruct (ensureDir_allowed (getPdfDir env) w Hprimary)
    as (w0 & He0 & Hdb0 & Hlog0 & Hfiles0 & Hden0 & Hdir0).
  erewrite bind_returned by exact He0.
  unfold writeFileSync. rewrite writeAt_run by (simpl; congruence).
  set (w1 := {| db := db w0; fs := _; allocated := allocated w0 |}).
  assert (Hbody : ∃ w2,
            copyToExternalBody (getPdfDir env, name) "pdfs" name w1 = (Returned tt, w2)
            ∧ db w2 = db w
            ∧ files (fs w2)
              = <[(joinDir path "pdfs", name) := data]>
                  (<[(getPdfDir env, name) := data]> (files (fs w)))).
  { unfold copyToExternalBody. unfold mbind at 1, M_bind at 1, getDb at 1.
    change (db w1) with (db w0). rewrite Hdb0, Hset. cbn [fst snd]. rewrite Htruthy.
    cbn [negb orb].
    destruct (ensureDir_allowed (joinDir path "pdfs") w1)
      as (w2 & He2 & Hdb2 & Hlog2 & Hfiles2 & Hden2 & Hdir2).
    { simpl. rewrite Hden0. exact Hmirror. }
    erewrite bind_returned by exact He2.
    unfold copyFileSync. unfold mbind at 1, M_bind at 1, getFs at 1.
    rewrite Hfiles2. unfold w1 at 1. cbn [files fs]. rewrite lookup_insert_eq.
    rewrite writeAt_run; [| exact Hdir2 | simpl; rewrite Hden2; simpl; rewrite Hden0; exact Hmirror].
    eexists. split; [reflexivity |]. simpl.
    rewrite Hdb2, Hfiles2. unfold w1. simpl. rewrite Hdb0, Hfiles0. split; reflexivity. }
  destruct Hbody as (w2 & Hbody & Hdb2 & Hfiles2).
  unfold copyToExternalIfEnabled, tryCatch. rewrite Hbody. simpl.
  exists w2. split_and!; [reflexivity | | | exact Hdb2].
  - rewrite Hfiles2. rewrite lookup_insert_ne by (intros [= H]; exact (Hne H)).
    apply lookup_insert_eq.
  - rewrite Hfiles2. apply lookup_insert_eq.
Qed.

Lemma upload_writes_primary_and_mirror_witness :
  ∃ w',
    filesUploadPdf devEnv "0001" "Foo Bar" tenBytes mirroredWorld
      = (Returned "0001 - Foo Bar.pdf", w')
    ∧ files (fs w') !! (joinDir "cloud" "pdfs", "0001 - Foo Bar.pdf") = Some tenBytes.
Proof.
  destruct (upload_writes_primary_and_mirror devEnv "0001" "Foo Bar" tenBytes "cloud"
              mirroredWorld) as (w' & Hrun & _ & Hmirror & _).
  - vm_compute. reflexivity.
  - vm_compute. reflexivity.
  - vm_compute. discriminate.
  - apply (bool_decide_unpack _). vm_compute. exact I.
  - apply (bool_decide_unpack _). vm_compute. exact I.
  - exists w'. split; [exact Hrun | exact Hmirror].
Defined.

(** X21.  When the primary PDF directory is write-protected, upload
    throws the permission error and nothing has changed: no file, no
    directory, no mirror copy. *)
Theorem upload_refused_changes_nothing env id title data w :
  getPdfDir env ∈ denied (fs w) →
  ∃ p, filesUploadPdf env id title data w = (Thrown (FsError EACCES p), w).
Proof.
  intros Hden. rewrite filesUploadPdf_run. cbv zeta.
  unfold mbind, M_bind. rewrite ensureDir_run.
  case_bool_decide as Hdir.
  - unfold writeFileSync, writeAt. munfold. simpl.
    rewrite bool_decide_eq_false_2 by (intros H; exact (H Hdir)).
    rewrite bool_decide_eq_true_2 by exact Hden. eauto.
  - rewrite bool_decide_eq_true_2 by exact Hden. eauto.
Qed.

Lemma upload_refused_changes_nothing_witness :
  ∃ p,
    filesUploadPdf devEnv "0001" "Foo Bar" tenBytes lockedLegacyWorld
    = (Thrown (FsError EACCES p), lockedLegacyWorld).
Proof.
  apply (upload_refused_changes_nothing devEnv "0001" "Foo Bar" tenBytes lockedLegacyWorld).
  apply (bool_decide_unpack _). vm_compute. exact I.
Defined.
